(** * Hikma Health server: clinic and appointment data access

    A shallow embedding of the two data-access modules of the server,
    [models/clinic.ts] and [models/appointment.ts], over an explicit model of
    the relational store they talk to through the query builder.

    - A table is the list of its rows, in insertion order.  The only
      constraint modelled is the primary key on [id], the one the source
      itself relies on ([onConflict (oc => oc.column "id")]).
    - A server function is a computation of the monad [M]: it threads the
      [World] (tables, clocks, UUID source, statement log) and may throw.
    - [uuidV1 ()] reads the next element of the world's UUID source;
      [now ()] and [new Date ()] read the world's two clocks.
    - A value bound into a statement is the value stored: a date cast to
      [timestamp with time zone] is that instant, and
      [JSON.stringify (v)] cast to [jsonb] is the JSON value [v]. *)

From Stdlib Require Import String List ZArith Bool Lia.
Import ListNotations.
Open Scope string_scope.
Open Scope list_scope.

Set Implicit Arguments.

(** ** Values *)

(** A point in time ([Date], [timestamp with time zone]). *)
Definition Timestamp := Z.

(** JSON values, for the [metadata] columns. *)
#[local] Unset Elimination Schemes.
Inductive Json : Type :=
| JNull
| JBool (b : bool)
| JNumber (n : Z)
| JString (s : string)
| JArray (l : list Json)
| JObject (fields : list (string * Json)).
#[local] Set Elimination Schemes.

(** The object literal [{}]. *)
Definition emptyObject : Json := JObject [].

(** What a caller can put where the code expects [id?: string]; the code
    tests it with [typeof id !== "string"]. *)
Inductive JsValue : Type :=
| VUndefined
| VNull
| VBoolean (b : bool)
| VNumber (n : Z)
| VString (s : string).  (* ids are ASCII: one character, one unit of length *)

Definition is_string (v : JsValue) : bool :=
  match v with VString _ => true | _ => false end.

(** JavaScript truthiness of a string: only the empty string is falsy. *)
Definition truthy (s : string) : bool := negb (s =? "").

(** ** Table rows *)

Module Visit.
(** The columns of [visits] that [Appointment.API.save] writes. *)
Record T : Type := mk {
  id : string;
  patient_id : string;
  clinic_id : string;
  provider_id : string;
  provider_name : string;
  metadata : Json;
  is_deleted : bool;
  created_at : Timestamp;
  updated_at : Timestamp;
  last_modified : Timestamp;
  server_created_at : Timestamp;
  deleted_at : option Timestamp
}.
End Visit.

Module User.
(** The columns of [users] that [Clinic.softDelete] reads. *)
Record T : Type := mk {
  id : string;
  clinic_id : option string;
  is_deleted : bool
}.
End User.

Module ClinicTable.
Definition name : string := "clinics".

Record T : Type := mk {
  id : string;
  cname : option string;        (* the column [name] *)
  is_deleted : bool;
  created_at : Timestamp;
  updated_at : Timestamp;
  last_modified : Timestamp;
  server_created_at : Timestamp;
  deleted_at : option Timestamp
}.
End ClinicTable.

Inductive Status : Type :=
| pending | confirmed | cancelled | completed | checked_in.

Module AppointmentTable.
Definition name : string := "appointments".

Record T : Type := mk {
  id : string;
  provider_id : option string;
  clinic_id : string;
  patient_id : string;
  user_id : string;
  current_visit_id : string;
  fulfilled_visit_id : option string;
  timestamp : Timestamp;
  duration : Z;
  reason : string;
  notes : string;
  status : Status;
  metadata : Json;
  is_deleted : bool;
  created_at : Timestamp;
  updated_at : Timestamp;
  last_modified : Timestamp;
  server_created_at : Timestamp;
  deleted_at : option Timestamp
}.
End AppointmentTable.

(** ** Tables with a primary key *)

Section Table.
Variable Row : Type.
Variable key : Row -> string.

Definition keys (t : list Row) : list string := map key t.

Definition has_key (k : string) (t : list Row) : bool :=
  existsb (fun r => key r =? k) t.

(** [SELECT * FROM t WHERE id = k]. *)
Definition rows_with_key (k : string) (t : list Row) : list Row :=
  filter (fun r => key r =? k) t.

(** [INSERT INTO t VALUES r]: refused when the key is taken. *)
Definition insert_row (r : Row) (t : list Row) : option (list Row) :=
  if has_key (key r) t then None else Some (t ++ [r]).

(** [UPDATE t SET ... WHERE id = k]. *)
Definition update_where (k : string) (set : Row -> Row) (t : list Row)
  : list Row :=
  map (fun r => if key r =? k then set r else r) t.

(** [INSERT INTO t VALUES r ON CONFLICT (id) DO UPDATE SET ...]: the
    assignments see the stored row and the proposed one, [excluded]. *)
Definition upsert_row (r : Row) (doUpdateSet : Row -> Row -> Row)
           (t : list Row) : list Row :=
  if has_key (key r) t
  then update_where (key r) (fun old => doUpdateSet old r) t
  else t ++ [r].
End Table.

(** ** The world of a server function *)

Record Db : Type := mkDb {
  appointments : list AppointmentTable.T;
  visits : list Visit.T;
  clinics : list ClinicTable.T;
  users : list User.T
}.

(** The tables that the two models touch. *)
Inductive Table : Type :=
| appointments_table
| visits_table
| clinics_table
| users_table.

(** Statements sent to the database, as logged in order of execution. *)
Inductive Stmt : Type :=
| Begin
| Commit
| Rollback
| Select (table : Table)
| Insert (table : Table) (id : string)
| InsertOnConflict (table : Table) (id : string)
| Update (table : Table) (id : string).

Record World : Type := mkWorld {
  db : Db;
  sql_now : Timestamp;          (* now() in the database *)
  js_now : Timestamp;           (* new Date() in the server *)
  uuid_source : nat -> string;  (* what successive uuidV1() calls return *)
  uuid_next : nat;
  log : list Stmt
}.

Inductive Error : Type :=
| UniqueViolation (table : Table) (id : string)
| ClinicHasUsers (id : string) (registered : nat).

Inductive Result (A : Type) : Type :=
| Ok (a : A)
| Throw (e : Error).
Arguments Throw {A} e.

Definition M (A : Type) : Type := World -> Result A * World.

Definition ret {A} (a : A) : M A := fun w => (Ok a, w).

Definition bind {A B} (c : M A) (k : A -> M B) : M B :=
  fun w => match c w with
           | (Ok a, w') => k a w'
           | (Throw e, w') => (Throw e, w')
           end.

Definition throw {A} (e : Error) : M A := fun w => (Throw e, w).

Declare Scope db_scope.
Delimit Scope db_scope with db.
Notation "x <- c ;; k" := (bind c (fun x => k))
  (at level 61, c at next level, right associativity) : db_scope.
Notation "c ;;; k" := (bind c (fun _ => k))
  (at level 61, right associativity) : db_scope.
Open Scope db_scope.

Definition with_db (w : World) (d : Db) : World :=
  mkWorld d (sql_now w) (js_now w) (uuid_source w) (uuid_next w) (log w).

Definition getDb : M Db := fun w => (Ok (db w), w).
Definition putDb (d : Db) : M unit := fun w => (Ok tt, with_db w d).
Definition now : M Timestamp := fun w => (Ok (sql_now w), w).
Definition newDate : M Timestamp := fun w => (Ok (js_now w), w).

Definition exec (s : Stmt) : M unit :=
  fun w => (Ok tt,
            mkWorld (db w) (sql_now w) (js_now w) (uuid_source w)
                    (uuid_next w) (log w ++ [s])).

(** [uuidV1 ()]. *)
Definition uuidV1 : M string :=
  fun w => (Ok (uuid_source w (uuid_next w)),
            mkWorld (db w) (sql_now w) (js_now w) (uuid_source w)
                    (S (uuid_next w)) (log w)).

(** [db.transaction ().execute (body)]: when the body throws, the tables
    are restored and the error is thrown again. *)
Definition transaction {A} (body : M A) : M A :=
  fun w =>
    match (exec Begin ;;; body) w with
    | (Ok a, w') => (exec Commit ;;; ret a) w'
    | (Throw e, w') => (exec Rollback ;;; throw e) (with_db w' (db w))
    end.

(** ** Statements of the query builder *)

Definition set_appointments (d : Db) (t : list AppointmentTable.T) : Db :=
  mkDb t (visits d) (clinics d) (users d).
Definition set_visits (d : Db) (t : list Visit.T) : Db :=
  mkDb (appointments d) t (clinics d) (users d).
Definition set_clinics (d : Db) (t : list ClinicTable.T) : Db :=
  mkDb (appointments d) (visits d) t (users d).

(** Result objects of the query builder. *)
Record InsertResult : Type := mkInsertResult {
  numInsertedOrUpdatedRows : nat
}.
Record UpdateResult : Type := mkUpdateResult {
  numUpdatedRows : nat
}.

(** What [executeTakeFirst ()] resolves to in JavaScript: the first row,
    or [undefined] when the query returned none.  [null] is another value,
    which it never gives. *)
Inductive Taken (A : Type) : Type :=
| TakenRow (row : A)
| TakenUndefined
| TakenNull.
Arguments TakenUndefined {A}.
Arguments TakenNull {A}.

Definition executeTakeFirst {A} (rows : list A) : Taken A :=
  match rows with
  | row :: _ => TakenRow row
  | [] => TakenUndefined
  end.

(** ** models/clinic.ts *)

Module Clinic.

(** [selectFrom clinics .where is_deleted = false .selectAll .execute]

    The query has no [ORDER BY]: which rows are returned is the code's, the
    order of the list is only the model's. *)
Definition getAll : M (list ClinicTable.T) :=
  exec (Select clinics_table) ;;;
  d <- getDb ;;
  ret (filter (fun c => Bool.eqb (ClinicTable.is_deleted c) false)
              (clinics d)).

(** The [where] clauses of the referential check; a NULL [clinic_id]
    equals nothing. *)
Definition registered_in (id : string) (u : User.T) : bool :=
  match User.clinic_id u with
  | Some c => c =? id
  | None => false
  end && Bool.eqb (User.is_deleted u) false.

(** [.set ({ is_deleted: true, deleted_at: new Date ().toISOString () })] *)
Definition mark_deleted (at_ : Timestamp) (c : ClinicTable.T)
  : ClinicTable.T :=
  ClinicTable.mk (ClinicTable.id c) (ClinicTable.cname c) true
                 (ClinicTable.created_at c) (ClinicTable.updated_at c)
                 (ClinicTable.last_modified c)
                 (ClinicTable.server_created_at c) (Some at_).

Definition softDelete (id : string) : M unit :=
  (* First check if there are any users registered to this clinic *)
  exec (Select users_table) ;;;
  d <- getDb ;;
  let usersInClinic := filter (registered_in id) (users d) in
  (* If there are users, throw an error *)
  if (0 <? length usersInClinic)%nat
  then throw (ClinicHasUsers id (length usersInClinic))
  else
    (* If no users are found, proceed with deletion *)
    date <- newDate ;;
    exec (Update clinics_table id) ;;;
    d <- getDb ;;
    putDb (set_clinics d
             (update_where ClinicTable.id id (mark_deleted date)
                           (clinics d))).

(** [.set ({ name })] *)
Definition rename (name : string) (c : ClinicTable.T) : ClinicTable.T :=
  ClinicTable.mk (ClinicTable.id c) (Some name) (ClinicTable.is_deleted c)
                 (ClinicTable.created_at c) (ClinicTable.updated_at c)
                 (ClinicTable.last_modified c)
                 (ClinicTable.server_created_at c)
                 (ClinicTable.deleted_at c).

Definition insertClinic (name : string) : M unit :=
  clinicId <- uuidV1 ;;
  t <- now ;;
  exec (Insert clinics_table clinicId) ;;;
  d <- getDb ;;
  match insert_row ClinicTable.id
          (ClinicTable.mk clinicId (Some name) false t t t t None)
          (clinics d) with
  | Some clinics' => putDb (set_clinics d clinics')
  | None => throw (UniqueViolation clinics_table clinicId)
  end.

Definition updateClinic (id name : string) : M unit :=
  exec (Update clinics_table id) ;;;
  d <- getDb ;;
  putDb (set_clinics d
           (update_where ClinicTable.id id (rename name) (clinics d))).

(** [if (typeof id !== "string" || id.length <= 5) { insert }
     else { update }] *)
Definition save (id : JsValue) (name : string) : M unit :=
  match id with
  | VString s =>
      if (String.length s <=? 5)%nat
      then insertClinic name
      else updateClinic s name
  | _ => insertClinic name
  end.

End Clinic.

(** ** models/appointment.ts *)

Module Appointment.

(** [Appointment.EncodedT], what callers and sync deltas carry. *)
Record EncodedT : Type := mkEncoded {
  id : string;
  provider_id : option string;
  clinic_id : string;
  patient_id : string;
  user_id : string;
  current_visit_id : string;
  fulfilled_visit_id : option string;
  timestamp : Timestamp;
  duration : Z;
  reason : string;
  notes : string;
  status : Status;
  metadata : Json;
  is_deleted : bool;
  created_at : Timestamp;
  updated_at : Timestamp;
  last_modified : Timestamp;
  server_created_at : Timestamp;
  deleted_at : option Timestamp
}.

(** [a || b] on an id that may be null or empty; [b] is only evaluated
    when [a] is falsy. *)
Definition or_else (a : option string) (b : M string) : M string :=
  match a with
  | Some s => if truthy s then ret s else b
  | None => b
  end.

Module API.
Section Helpers.
(** Helpers of [@/lib/utils], taken as parameters. *)
Variable isValidUUID : string -> bool.
Variable safeJSONParse : Json -> Json -> Json.
(** The instant that the string made by [toSafeDateString] denotes
    once cast to [timestamp with time zone]. *)
Variable toSafeDateString : Timestamp -> Timestamp.

(** No [ORDER BY] here either: the order of the list is the model's. *)
Definition getAll : M (list AppointmentTable.T) :=
  exec (Select appointments_table) ;;;
  d <- getDb ;;
  ret (filter (fun r => Bool.eqb (AppointmentTable.is_deleted r) false)
              (appointments d)).

(** [executeTakeFirst]: the first matching row, if any. *)
Definition getById (id : string) : M (option AppointmentTable.T) :=
  exec (Select appointments_table) ;;;
  d <- getDb ;;
  ret (hd_error
         (filter (fun r => Bool.eqb (AppointmentTable.is_deleted r) false)
            (filter (fun r => AppointmentTable.id r =? id)
                    (appointments d)))).

(** [getById] again, with the JavaScript value it resolves to: the cast
    [res as unknown as EncodedT | null] converts nothing, so the caller
    gets what [executeTakeFirst] gave. *)
Definition getById_value (id : string) : M (Taken AppointmentTable.T) :=
  exec (Select appointments_table) ;;;
  d <- getDb ;;
  ret (executeTakeFirst
         (filter (fun r => Bool.eqb (AppointmentTable.is_deleted r) false)
            (filter (fun r => AppointmentTable.id r =? id)
                    (appointments d)))).

(** [.set ({ status, updated_at: now (), last_modified: now () })] *)
Definition set_status (status : Status) (t : Timestamp)
           (r : AppointmentTable.T) : AppointmentTable.T :=
  AppointmentTable.mk
    (AppointmentTable.id r)
    (AppointmentTable.provider_id r)
    (AppointmentTable.clinic_id r)
    (AppointmentTable.patient_id r)
    (AppointmentTable.user_id r)
    (AppointmentTable.current_visit_id r)
    (AppointmentTable.fulfilled_visit_id r)
    (AppointmentTable.timestamp r)
    (AppointmentTable.duration r)
    (AppointmentTable.reason r)
    (AppointmentTable.notes r)
    status
    (AppointmentTable.metadata r)
    (AppointmentTable.is_deleted r)
    (AppointmentTable.created_at r)
    t
    t
    (AppointmentTable.server_created_at r)
    (AppointmentTable.deleted_at r).

(** The caller's [status] is a string; here it is one of the literals of
    [StatusSchema], which is what the [status] column holds. *)
Definition toggleStatus (id : string) (status : Status) : M unit :=
  t <- now ;;
  exec (Update appointments_table id) ;;;
  d <- getDb ;;
  putDb (set_appointments d
           (update_where AppointmentTable.id id (set_status status t)
                         (appointments d))).

(** [insertInto visits .values (v) .returningAll
     .executeTakeFirstOrThrow] *)
Definition insertVisit (v : Visit.T) : M Visit.T :=
  exec (Insert visits_table (Visit.id v)) ;;;
  d <- getDb ;;
  match insert_row Visit.id v (visits d) with
  | Some visits' => putDb (set_visits d visits') ;;; ret v
  | None => throw (UniqueViolation visits_table (Visit.id v))
  end.

(** The row proposed by [.values ({ ... })] of [save]. *)
Definition values (rowId visitId : string) (t : Timestamp)
           (appointment : EncodedT) : AppointmentTable.T :=
  AppointmentTable.mk
    rowId
    (provider_id appointment)
    (clinic_id appointment)
    (patient_id appointment)
    (user_id appointment)
    visitId
    (fulfilled_visit_id appointment)
    (timestamp appointment)
    (duration appointment)
    (reason appointment)
    (notes appointment)
    (status appointment)
    (* JSON.stringify (...)::jsonb denotes the value it prints *)
    (safeJSONParse (metadata appointment) emptyObject)
    false
    (toSafeDateString (created_at appointment))
    (toSafeDateString (updated_at appointment))
    t
    t
    None.

(** The assignments of [doUpdateSet ({ ... })]; [server_created_at]
    is not among them. *)
Definition doUpdateSet (t : Timestamp) (appointment : EncodedT)
           (old excluded : AppointmentTable.T) : AppointmentTable.T :=
  AppointmentTable.mk
    (AppointmentTable.id excluded)
    (provider_id appointment)
    (clinic_id appointment)
    (AppointmentTable.patient_id excluded)
    (AppointmentTable.user_id excluded)
    (AppointmentTable.current_visit_id excluded)
    (fulfilled_visit_id appointment)
    (timestamp appointment)
    (duration appointment)
    (reason appointment)
    (notes appointment)
    (status appointment)
    (AppointmentTable.metadata excluded)
    false
    (toSafeDateString (created_at appointment))
    (toSafeDateString (updated_at appointment))
    t
    (AppointmentTable.server_created_at old)
    (AppointmentTable.deleted_at excluded).

(** [insertInto appointments .values (row) .onConflict (...)
     .executeTakeFirstOrThrow] *)
Definition upsertAppointment (row : AppointmentTable.T)
           (onConflict : AppointmentTable.T -> AppointmentTable.T ->
                         AppointmentTable.T) : M InsertResult :=
  exec (InsertOnConflict appointments_table (AppointmentTable.id row)) ;;;
  d <- getDb ;;
  putDb (set_appointments d
           (upsert_row AppointmentTable.id row onConflict
                       (appointments d))) ;;;
  ret (mkInsertResult 1).

Definition save (id : option string) (appointment : EncodedT)
           (currentUserName : string) : M InsertResult :=
  transaction (
    visitId <- (if truthy (current_visit_id appointment)
                   && isValidUUID (current_visit_id appointment)
                then ret (current_visit_id appointment)
                else uuidV1) ;;
    (* If there is no visit Id, create a new visit *)
    visitId <- (if negb (isValidUUID (current_visit_id appointment))
                then
                  t <- now ;;
                  visit <- insertVisit
                             (Visit.mk visitId
                                (patient_id appointment)
                                (clinic_id appointment)
                                (user_id appointment)
                                currentUserName
                                emptyObject
                                false t t t t None) ;;
                  ret (Visit.id visit)
                else ret visitId) ;;
    rowId <- or_else id (or_else (Some (Appointment.id appointment)) uuidV1) ;;
    t <- now ;;
    upsertAppointment (values rowId visitId t appointment)
                      (doUpdateSet t appointment)).

(** [.set ({ is_deleted: true, deleted_at: now (), updated_at: now (),
     last_modified: now () })] *)
Definition mark_deleted (t : Timestamp) (r : AppointmentTable.T)
  : AppointmentTable.T :=
  AppointmentTable.mk
    (AppointmentTable.id r)
    (AppointmentTable.provider_id r)
    (AppointmentTable.clinic_id r)
    (AppointmentTable.patient_id r)
    (AppointmentTable.user_id r)
    (AppointmentTable.current_visit_id r)
    (AppointmentTable.fulfilled_visit_id r)
    (AppointmentTable.timestamp r)
    (AppointmentTable.duration r)
    (AppointmentTable.reason r)
    (AppointmentTable.notes r)
    (AppointmentTable.status r)
    (AppointmentTable.metadata r)
    true
    (AppointmentTable.created_at r)
    t
    t
    (AppointmentTable.server_created_at r)
    (Some t).

Definition softDelete (id : string) : M (list UpdateResult) :=
  t <- now ;;
  exec (Update appointments_table id) ;;;
  d <- getDb ;;
  putDb (set_appointments d
           (update_where AppointmentTable.id id (mark_deleted t)
                         (appointments d))) ;;;
  ret [mkUpdateResult
         (length (rows_with_key AppointmentTable.id id
                                (appointments d)))].
End Helpers.

Section Details.
(** [Patient.Table.T] is declared in a model that is not listed: the row
    type of [patients] and its [id] column are parameters, and the table, a
    part of the database that no function here writes, is an argument. *)
Variable PatientRow : Type.
Variable patient_key : PatientRow -> string.

Record Details : Type := mkDetails {
  appointment : AppointmentTable.T;
  patient : PatientRow;
  clinic : ClinicTable.T;
  provider : User.T
}.

(** [ON appointments.provider_id = users.id]; NULL equals nothing. *)
Definition is_provider (a : AppointmentTable.T) (u : User.T) : bool :=
  match AppointmentTable.provider_id a with
  | Some p => p =? User.id u
  | None => false
  end.

(** [FROM appointments INNER JOIN patients ... INNER JOIN clinics ...
     INNER JOIN users ... WHERE appointments.is_deleted = false]: one
    result row for every combination of matching rows.  The query has no
    [ORDER BY]: the order of the list is the model's. *)
Definition getAllWithDetails (patients : list PatientRow)
  : M (list Details) :=
  exec (Select appointments_table) ;;;
  d <- getDb ;;
  ret (flat_map
         (fun a =>
            flat_map
              (fun p =>
                 flat_map
                   (fun c =>
                      map (fun u => mkDetails a p c u)
                          (filter (is_provider a) (users d)))
                   (filter (fun c => AppointmentTable.clinic_id a
                                     =? ClinicTable.id c)
                           (clinics d)))
              (filter (fun p => AppointmentTable.patient_id a
                                =? patient_key p)
                      patients))
         (filter (fun a => Bool.eqb (AppointmentTable.is_deleted a) false)
                 (appointments d))).
End Details.
End API.

Module Sync.
Section Helpers.
Variable isValidUUID : string -> bool.
Variable safeJSONParse : Json -> Json -> Json.
Variable toSafeDateString : Timestamp -> Timestamp.

Definition upsertFromDelta (delta : EncodedT) : M InsertResult :=
  id <- or_else (Some (id delta)) uuidV1 ;;
  API.save isValidUUID safeJSONParse toSafeDateString
           (Some id) delta "".

Definition deleteFromDelta (id : string) : M (list UpdateResult) :=
  API.softDelete id.
End Helpers.
End Sync.
End Appointment.

(** ** Server functions on appointments *)

Module ServerFunctions.

(** [createServerFn (...).validator ((data) => data).handler (...)]: the
    handler, run on the server on the validated payload.

    The payload [{ id }] of [getAppointmentById]. *)
Record IdData : Type := mkIdData { data_id : string }.

Definition getAppointmentById (data : IdData)
  : M (option AppointmentTable.T) :=
  res <- Appointment.API.getById (data_id data) ;;
  ret res.

(** The validated payload [{ id, status }] of [toggleAppointmentStatus]. *)
Record StatusData : Type := mkStatusData {
  status_id : string;
  status_value : Status
}.

Definition toggleAppointmentStatus (data : StatusData) : M unit :=
  Appointment.API.toggleStatus (status_id data) (status_value data).

End ServerFunctions.

(** ** routes/app/clinics.index.tsx *)

Module ClinicsRoute.

(** What the page shows or does besides talking to the database. *)
Inductive UiEvent : Type :=
| ConsoleError (error : Error)       (* console.error (error) *)
| ToastError (error : Error)         (* toast.error (error.message) *)
| ToastSuccess (message : string)    (* toast.success (message) *)
| RouterInvalidate.                  (* router.invalidate ({ sync: true }) *)

(** The browser page: the world behind the server, and what was shown. *)
Record Page : Type := mkPage {
  world : World;
  shown : list UiEvent
}.

(** A promise, run to completion: it resolves or rejects. *)
Definition Promise (A : Type) : Type := Page -> Result A * Page.

Definition resolve {A} (a : A) : Promise A := fun p => (Ok a, p).

(** Calling a server function from the page. *)
Definition call {A} (c : M A) : Promise A :=
  fun p => let (r, w') := c (world p) in (r, mkPage w' (shown p)).

Definition emit (e : UiEvent) : Promise unit :=
  fun p => (Ok tt, mkPage (world p) (shown p ++ [e])).

(** [promise.then (onFulfilled)]: a rejection passes through. *)
Definition then_ {A B} (promise : Promise A) (onFulfilled : A -> Promise B)
  : Promise B :=
  fun p => match promise p with
           | (Ok a, p') => onFulfilled a p'
           | (Throw e, p') => (Throw e, p')
           end.

(** [promise.catch (onRejected)]: a rejection is handed to the handler,
    and the promise it returns takes over; here the handlers return
    nothing, so the caught promise resolves. *)
Definition catch_ (promise : Promise unit) (onRejected : Error -> Promise unit)
  : Promise unit :=
  fun p => match promise p with
           | (Ok a, p') => (Ok a, p')
           | (Throw e, p') => onRejected e p'
           end.

Definition deleteClinic (id : string) : M unit := Clinic.softDelete id.

(** [confirmed] is the answer of [window.confirm]. *)
Definition handleDelete (confirmed : bool) (id : string) : Promise unit :=
  if negb confirmed then resolve tt
  else
    then_
      (catch_ (call (deleteClinic id))
              (fun error =>
                 then_ (emit (ConsoleError error))
                       (fun _ => emit (ToastError error))))
      (fun _ =>
         then_ (emit (ToastSuccess "Clinic deleted successfully"))
               (fun _ => emit RouterInvalidate)).

End ClinicsRoute.

(** ** Vocabulary of the statements *)

(** Outcome and final world of a computation started in [w]. *)
Definition result_of {A} (c : M A) (w : World) : Result A := fst (c w).
Definition world_after {A} (c : M A) (w : World) : World := snd (c w).

(** What the next [uuidV1 ()] returns, and the world once it has. *)
Definition next_uuid (w : World) : string := uuid_source w (uuid_next w).
Definition bump (w : World) : World :=
  mkWorld (db w) (sql_now w) (js_now w) (uuid_source w) (S (uuid_next w))
          (log w).

(** [id || appointment.id || fresh]: the id [save] writes under. *)
Definition target_id (id : option string) (appointment : Appointment.EncodedT)
           (fresh : string) : string :=
  match id with
  | Some s => if truthy s then s
              else if truthy (Appointment.id appointment)
                   then Appointment.id appointment else fresh
  | None => if truthy (Appointment.id appointment)
            then Appointment.id appointment else fresh
  end.

(** Whether [id || appointment.id] is already truthy. *)
Definition id_given (id : option string) (appointment : Appointment.EncodedT)
  : bool :=
  match id with
  | Some s => truthy s || truthy (Appointment.id appointment)
  | None => truthy (Appointment.id appointment)
  end.

(** The visit row that [save] inserts. *)
Definition new_visit (visitId : string) (appointment : Appointment.EncodedT)
           (currentUserName : string) (t : Timestamp) : Visit.T :=
  Visit.mk visitId (Appointment.patient_id appointment)
           (Appointment.clinic_id appointment)
           (Appointment.user_id appointment)
           currentUserName emptyObject false t t t t None.

(** The pass-through in the words of the specification: [save] on
    [d.id || fresh UUID], the delta and the empty user name. *)
Definition save_of_delta (isValidUUID : string -> bool)
           (safeJSONParse : Json -> Json -> Json)
           (toSafeDateString : Timestamp -> Timestamp)
           (d : Appointment.EncodedT) : M InsertResult :=
  fun w =>
    if truthy (Appointment.id d)
    then Appointment.API.save isValidUUID safeJSONParse toSafeDateString
           (Some (Appointment.id d)) d "" w
    else Appointment.API.save isValidUUID safeJSONParse toSafeDateString
           (Some (next_uuid w)) d "" (bump w).

(** The visit id and the row id that [save] settles on in world [w]. *)
Definition saved_visit_id (isValidUUID : string -> bool)
           (appointment : Appointment.EncodedT) (w : World) : string :=
  let cv := Appointment.current_visit_id appointment in
  if truthy cv && isValidUUID cv then cv else next_uuid w.

Definition saved_id (isValidUUID : string -> bool) (id : option string)
           (appointment : Appointment.EncodedT) (w : World) : string :=
  let cv := Appointment.current_visit_id appointment in
  target_id id appointment
            (next_uuid (if truthy cv && isValidUUID cv then w else bump w)).

(** The stored row carries the content of the delta. *)
Definition same_content (d : Appointment.EncodedT) (row : AppointmentTable.T)
  : Prop :=
  AppointmentTable.clinic_id row = Appointment.clinic_id d /\
  AppointmentTable.patient_id row = Appointment.patient_id d /\
  AppointmentTable.user_id row = Appointment.user_id d /\
  AppointmentTable.fulfilled_visit_id row = Appointment.fulfilled_visit_id d /\
  AppointmentTable.timestamp row = Appointment.timestamp d /\
  AppointmentTable.duration row = Appointment.duration d /\
  AppointmentTable.reason row = Appointment.reason d /\
  AppointmentTable.notes row = Appointment.notes d /\
  AppointmentTable.status row = Appointment.status d /\
  AppointmentTable.metadata row = Appointment.metadata d /\
  AppointmentTable.provider_id row = Appointment.provider_id d.

(** The visit that [save] would insert for [a] in [w], if it has to insert
    one, gets an id that no stored visit has. *)
Definition visit_id_free (isValidUUID : string -> bool)
           (a : Appointment.EncodedT) (w : World) : Prop :=
  isValidUUID (Appointment.current_visit_id a) = false ->
  has_key Visit.id (next_uuid w) (visits (db w)) = false.

(** The statements of one successful [save] of [a] under [rowId] in [w]. *)
Definition save_statements (isValidUUID : string -> bool)
           (a : Appointment.EncodedT) (rowId : string) (w : World)
  : list Stmt :=
  Begin ::
  (if isValidUUID (Appointment.current_visit_id a) then []
   else [Insert visits_table (next_uuid w)]) ++
  [InsertOnConflict appointments_table rowId; Commit].

(** A clinic row after a soft delete at [t]: the flag and the deletion
    time are set, every other column is as before. *)
Definition clinic_soft_deleted (t : Timestamp) (old new : ClinicTable.T)
  : Prop :=
  ClinicTable.is_deleted new = true /\
  ClinicTable.deleted_at new = Some t /\
  ClinicTable.id new = ClinicTable.id old /\
  ClinicTable.cname new = ClinicTable.cname old /\
  ClinicTable.created_at new = ClinicTable.created_at old /\
  ClinicTable.updated_at new = ClinicTable.updated_at old /\
  ClinicTable.last_modified new = ClinicTable.last_modified old /\
  ClinicTable.server_created_at new = ClinicTable.server_created_at old.

(** An appointment row after a soft delete at [t]: the flag and the three
    times are set, every other column is as before. *)
Definition appointment_soft_deleted (t : Timestamp)
           (old new : AppointmentTable.T) : Prop :=
  AppointmentTable.is_deleted new = true /\
  AppointmentTable.deleted_at new = Some t /\
  AppointmentTable.updated_at new = t /\
  AppointmentTable.last_modified new = t /\
  AppointmentTable.id new = AppointmentTable.id old /\
  AppointmentTable.provider_id new = AppointmentTable.provider_id old /\
  AppointmentTable.clinic_id new = AppointmentTable.clinic_id old /\
  AppointmentTable.patient_id new = AppointmentTable.patient_id old /\
  AppointmentTable.user_id new = AppointmentTable.user_id old /\
  AppointmentTable.current_visit_id new
  = AppointmentTable.current_visit_id old /\
  AppointmentTable.fulfilled_visit_id new
  = AppointmentTable.fulfilled_visit_id old /\
  AppointmentTable.timestamp new = AppointmentTable.timestamp old /\
  AppointmentTable.duration new = AppointmentTable.duration old /\
  AppointmentTable.reason new = AppointmentTable.reason old /\
  AppointmentTable.notes new = AppointmentTable.notes old /\
  AppointmentTable.status new = AppointmentTable.status old /\
  AppointmentTable.metadata new = AppointmentTable.metadata old /\
  AppointmentTable.created_at new = AppointmentTable.created_at old /\
  AppointmentTable.server_created_at new
  = AppointmentTable.server_created_at old.

(** A user row that blocks the deletion of clinic [id]. *)
Definition registered_user (id : string) (u : User.T) : Prop :=
  User.clinic_id u = Some id /\ User.is_deleted u = false.

(** The clinic row that [Clinic.save] inserts. *)
Definition new_clinic (clinicId name : string) (t : Timestamp)
  : ClinicTable.T :=
  ClinicTable.mk clinicId (Some name) false t t t t None.

(** The ids for which [Clinic.save] inserts: anything but a string, and
    strings of at most five characters. *)
Definition no_usable_id (id : JsValue) : Prop :=
  is_string id = false \/
  exists s, id = VString s /\ (String.length s <= 5)%nat.

(** ** A sample world *)

Module Sample.
#[local] Open Scope Z_scope.

(** Stand-ins for the helpers of [@/lib/utils]: a validator that checks the
    canonical length of a UUID, a parser that hands objects through and
    falls back to the default on anything else, dates kept as they are. *)
Definition isValidUUID (s : string) : bool := (String.length s =? 36)%nat.
Definition safeJSONParse (v dflt : Json) : Json :=
  match v with
  | JObject _ => v
  | _ => dflt
  end.
Definition toSafeDateString (t : Timestamp) : Timestamp := t.

Definition uuids (n : nat) : string :=
  nth n ["6ba7b810-9dad-11d1-80b4-00c04fd430c8";
         "6ba7b811-9dad-11d1-80b4-00c04fd430c8";
         "6ba7b812-9dad-11d1-80b4-00c04fd430c8";
         "6ba7b814-9dad-11d1-80b4-00c04fd430c8"]
        "6ba7b81f-9dad-11d1-80b4-00c04fd430c8".

Definition clinic_id : string := "1b4e28ba-2fa1-11d2-883f-0016d3cca427".
Definition patient_id : string := "9a3f3c1e-5a0b-11ee-8c99-0242ac120002".
Definition nurse_id : string := "c2a1d5d4-5a0b-11ee-8c99-0242ac120002".
Definition doctor_id : string := "d41d8cd9-5a0b-11ee-8c99-0242ac120002".
Definition appointment_id : string := "7d444840-9dc0-11d1-b245-5ffdce74fad2".

(** An appointment as a client sends it, with no visit yet. *)
Definition delta : Appointment.EncodedT :=
  Appointment.mkEncoded appointment_id (Some doctor_id) clinic_id patient_id
    nurse_id "" None 1700000000 30 "follow-up" "bring results" confirmed
    (JObject [("room", JString "B2")]) false
    1690000000 1690000500 1690000500 1690000000 None.

(** The stored row of that appointment, as an earlier save left it. *)
Definition stored : AppointmentTable.T :=
  AppointmentTable.mk appointment_id None clinic_id patient_id nurse_id
    "0e8a2a2c-5a0c-11ee-8c99-0242ac120002" None 1600000000 15 "check-up" ""
    pending emptyObject false 1590000000 1590000000 1590000000 1590000000
    None.

Definition clinic : ClinicTable.T :=
  ClinicTable.mk clinic_id (Some "Kijiji") false 1500000000 1500000000
    1500000000 1500000000 None.

Definition nurse : User.T := User.mk nurse_id (Some clinic_id) false.

Definition world (d : Db) : World := mkWorld d 1700000600 1700000601 uuids 0%nat [].

Definition empty_db : Db := mkDb [] [] [] [].
Definition db1 : Db := mkDb [stored] [] [clinic] [nurse].
(** The same, once the nurse has been removed. *)
Definition db2 : Db :=
  mkDb [stored] [] [clinic] [User.mk nurse_id (Some clinic_id) true].

(** A provider, and two appointments booked with that provider. *)
Definition doctor : User.T := User.mk doctor_id None false.
Definition booked (id : string) : AppointmentTable.T :=
  AppointmentTable.mk id (Some doctor_id) clinic_id patient_id nurse_id
    "0e8a2a2c-5a0c-11ee-8c99-0242ac120002" None 1700000000 30 "follow-up" ""
    confirmed emptyObject false 1690000000 1690000000 1690000000 1690000000
    None.
Definition second_appointment_id : string :=
  "7d444841-9dc0-11d1-b245-5ffdce74fad2".
Definition db4 : Db :=
  mkDb [booked appointment_id; booked second_appointment_id] []
       [clinic] [doctor].

(** A clinic filed under a short id. *)
Definition short_clinic : ClinicTable.T :=
  ClinicTable.mk "c-17" (Some "Mto wa Mbu") false 1500000000 1500000000
    1500000000 1500000000 None.
Definition db3 : Db := mkDb [] [] [short_clinic; clinic] [].

End Sample.

(** ** Vocabulary of the further properties *)

(** An appointment row after [toggleStatus] to [s] at [t]: the status and
    the two modification times are set, every other column is as before,
    the deletion flag and time included. *)
Definition status_toggled (s : Status) (t : Timestamp)
           (old new : AppointmentTable.T) : Prop :=
  AppointmentTable.status new = s /\
  AppointmentTable.updated_at new = t /\
  AppointmentTable.last_modified new = t /\
  AppointmentTable.is_deleted new = AppointmentTable.is_deleted old /\
  AppointmentTable.deleted_at new = AppointmentTable.deleted_at old /\
  AppointmentTable.id new = AppointmentTable.id old /\
  AppointmentTable.provider_id new = AppointmentTable.provider_id old /\
  AppointmentTable.clinic_id new = AppointmentTable.clinic_id old /\
  AppointmentTable.patient_id new = AppointmentTable.patient_id old /\
  AppointmentTable.user_id new = AppointmentTable.user_id old /\
  AppointmentTable.current_visit_id new
  = AppointmentTable.current_visit_id old /\
  AppointmentTable.fulfilled_visit_id new
  = AppointmentTable.fulfilled_visit_id old /\
  AppointmentTable.timestamp new = AppointmentTable.timestamp old /\
  AppointmentTable.duration new = AppointmentTable.duration old /\
  AppointmentTable.reason new = AppointmentTable.reason old /\
  AppointmentTable.notes new = AppointmentTable.notes old /\
  AppointmentTable.metadata new = AppointmentTable.metadata old /\
  AppointmentTable.created_at new = AppointmentTable.created_at old /\
  AppointmentTable.server_created_at new
  = AppointmentTable.server_created_at old.

(** The same world at a later moment: the clocks read [sql] and [js]. *)
Definition later (sql js : Timestamp) (w : World) : World :=
  mkWorld (db w) sql js (uuid_source w) (uuid_next w) (log w).

(** The primary keys hold: no table has two rows with one id. *)
Definition unique_ids (d : Db) : Prop :=
  NoDup (keys AppointmentTable.id (appointments d)) /\
  NoDup (keys Visit.id (visits d)) /\
  NoDup (keys ClinicTable.id (clinics d)) /\
  NoDup (keys User.id (users d)).

(** [new], with [server_created_at] as [old] has it. *)
Definition keep_server_created_at (old new : AppointmentTable.T)
  : AppointmentTable.T :=
  AppointmentTable.mk
    (AppointmentTable.id new)
    (AppointmentTable.provider_id new)
    (AppointmentTable.clinic_id new)
    (AppointmentTable.patient_id new)
    (AppointmentTable.user_id new)
    (AppointmentTable.current_visit_id new)
    (AppointmentTable.fulfilled_visit_id new)
    (AppointmentTable.timestamp new)
    (AppointmentTable.duration new)
    (AppointmentTable.reason new)
    (AppointmentTable.notes new)
    (AppointmentTable.status new)
    (AppointmentTable.metadata new)
    (AppointmentTable.is_deleted new)
    (AppointmentTable.created_at new)
    (AppointmentTable.updated_at new)
    (AppointmentTable.last_modified new)
    (AppointmentTable.server_created_at old)
    (AppointmentTable.deleted_at new).

(** A clinic row after a rename to [name]: only the name has changed. *)
Definition clinic_renamed (name : string) (old new : ClinicTable.T) : Prop :=
  ClinicTable.cname new = Some name /\
  ClinicTable.id new = ClinicTable.id old /\
  ClinicTable.is_deleted new = ClinicTable.is_deleted old /\
  ClinicTable.created_at new = ClinicTable.created_at old /\
  ClinicTable.updated_at new = ClinicTable.updated_at old /\
  ClinicTable.last_modified new = ClinicTable.last_modified old /\
  ClinicTable.server_created_at new = ClinicTable.server_created_at old /\
  ClinicTable.deleted_at new = ClinicTable.deleted_at old.

(** An appointment row as [save] writes it at [t] under [rowId] with the
    visit [visitId]: every column but [server_created_at], read off the
    appointment. *)
Definition written_by_save (safeJSONParse : Json -> Json -> Json)
           (toSafeDateString : Timestamp -> Timestamp)
           (a : Appointment.EncodedT) (rowId visitId : string)
           (t : Timestamp) (row : AppointmentTable.T) : Prop :=
  AppointmentTable.id row = rowId /\
  AppointmentTable.current_visit_id row = visitId /\
  AppointmentTable.provider_id row = Appointment.provider_id a /\
  AppointmentTable.clinic_id row = Appointment.clinic_id a /\
  AppointmentTable.patient_id row = Appointment.patient_id a /\
  AppointmentTable.user_id row = Appointment.user_id a /\
  AppointmentTable.fulfilled_visit_id row = Appointment.fulfilled_visit_id a /\
  AppointmentTable.timestamp row = Appointment.timestamp a /\
  AppointmentTable.duration row = Appointment.duration a /\
  AppointmentTable.reason row = Appointment.reason a /\
  AppointmentTable.notes row = Appointment.notes a /\
  AppointmentTable.status row = Appointment.status a /\
  AppointmentTable.metadata row
  = safeJSONParse (Appointment.metadata a) emptyObject /\
  AppointmentTable.is_deleted row = false /\
  AppointmentTable.created_at row
  = toSafeDateString (Appointment.created_at a) /\
  AppointmentTable.updated_at row
  = toSafeDateString (Appointment.updated_at a) /\
  AppointmentTable.last_modified row = t /\
  AppointmentTable.deleted_at row = None.

(** The one write of an upsert, told from the table before and after: a
    row with [rowId] is there and every such row is as [save] writes it;
    a new id adds exactly that row at the end, stamped [t] as its
    [server_created_at]; an id that was there keeps its place and its
    [server_created_at]; rows with other ids are as before. *)
Definition appointment_upserted (safeJSONParse : Json -> Json -> Json)
           (toSafeDateString : Timestamp -> Timestamp)
           (a : Appointment.EncodedT) (rowId visitId : string)
           (t : Timestamp) (before after : list AppointmentTable.T) : Prop :=
  has_key AppointmentTable.id rowId after = true /\
  (forall row, In row after -> AppointmentTable.id row = rowId ->
     written_by_save safeJSONParse toSafeDateString a rowId visitId t row) /\
  (has_key AppointmentTable.id rowId before = false ->
   exists row, after = before ++ [row] /\
               AppointmentTable.id row = rowId /\
               AppointmentTable.server_created_at row = t) /\
  (has_key AppointmentTable.id rowId before = true ->
   Forall2 (fun old new =>
              if AppointmentTable.id old =? rowId
              then AppointmentTable.server_created_at new
                   = AppointmentTable.server_created_at old
              else new = old)
           before after) /\
  (forall k, k <> rowId ->
     rows_with_key AppointmentTable.id k after
     = rows_with_key AppointmentTable.id k before).

(** The clinic of a listed record, as shown once clinic [id] has been
    soft-deleted at [t]. *)
Definition with_clinic_deleted {PatientRow : Type} (id : string)
           (t : Timestamp) (x : Appointment.API.Details PatientRow)
  : Appointment.API.Details PatientRow :=
  Appointment.API.mkDetails
    (Appointment.API.appointment x)
    (Appointment.API.patient x)
    (if ClinicTable.id (Appointment.API.clinic x) =? id
     then Clinic.mark_deleted t (Appointment.API.clinic x)
     else Appointment.API.clinic x)
    (Appointment.API.provider x).

(** * Properties *)

(** ** Keyed tables *)

Section TableFacts.
Variable Row : Type.
Variable key : Row -> string.

Lemma has_key_In (k : string) (t : list Row) :
  has_key key k t = true <-> In k (keys key t).
Proof.
  unfold has_key, keys. rewrite existsb_exists, in_map_iff.
  split; intros [r [H1 H2]]; exists r.
  - apply String.eqb_eq in H2. auto.
  - split; [assumption | now apply String.eqb_eq].
Qed.

Lemma has_key_not_In (k : string) (t : list Row) :
  has_key key k t = false <-> ~ In k (keys key t).
Proof.
  rewrite <- has_key_In. destruct (has_key key k t); split; intros H.
  - discriminate.
  - now contradiction H.
  - intro; discriminate.
  - reflexivity.
Qed.

Lemma rows_with_key_none (k : string) (t : list Row) :
  has_key key k t = false -> rows_with_key key k t = [].
Proof.
  unfold has_key, rows_with_key. induction t as [|r t IH]; simpl; intro H.
  - reflexivity.
  - apply orb_false_iff in H. destruct H as [H1 H2].
    rewrite H1. auto.
Qed.

Lemma rows_with_key_app (k : string) (t u : list Row) :
  rows_with_key key k (t ++ u) =
  rows_with_key key k t ++ rows_with_key key k u.
Proof. unfold rows_with_key. apply filter_app. Qed.

(** Under the primary key, a key selects at most one row. *)
Lemma rows_with_key_unique (k : string) (t : list Row) :
  NoDup (keys key t) ->
  has_key key k t = true ->
  length (rows_with_key key k t) = 1%nat.
Proof.
  unfold has_key, rows_with_key.
  induction t as [|r t IH]; simpl; intros ND H.
  - discriminate.
  - inversion ND as [|? ? Hnotin ND']; subst.
    destruct (key r =? k) eqn:E; simpl in *.
    + apply String.eqb_eq in E. subst k.
      apply has_key_not_In in Hnotin.
      apply rows_with_key_none in Hnotin.
      unfold rows_with_key in Hnotin. now rewrite Hnotin.
    + now apply IH.
Qed.

(** An update that keeps the key of the rows it touches keeps the key
    column as a whole. *)
Lemma keys_update_where (k : string) (set : Row -> Row) (t : list Row) :
  (forall r, key r = k -> key (set r) = k) ->
  keys key (update_where key k set t) = keys key t.
Proof.
  intro Hset. unfold keys, update_where. rewrite map_map.
  apply map_ext. intro r.
  destruct (key r =? k) eqn:E; [|reflexivity].
  apply String.eqb_eq in E. rewrite Hset; congruence.
Qed.

Lemma length_update_where (k : string) (set : Row -> Row) (t : list Row) :
  length (update_where key k set t) = length t.
Proof. unfold update_where. apply length_map. Qed.

Lemma update_where_absent (k : string) (set : Row -> Row) (t : list Row) :
  has_key key k t = false -> update_where key k set t = t.
Proof.
  unfold has_key, update_where.
  induction t as [|r t IH]; simpl; intro H; [reflexivity|].
  apply orb_false_iff in H. destruct H as [H1 H2].
  rewrite H1. f_equal. auto.
Qed.

Lemma In_update_where (k : string) (set : Row -> Row) (t : list Row)
      (r' : Row) :
  In r' (update_where key k set t) ->
  exists r, In r t /\ r' = (if key r =? k then set r else r).
Proof.
  unfold update_where. rewrite in_map_iff.
  intros [r [H1 H2]]. exists r. auto.
Qed.

(** The frame of an update, row by row. *)
Lemma update_where_Forall2 (k : string) (set : Row -> Row) (t : list Row) :
  Forall2 (fun old new => new = if key old =? k then set old else old)
          t (update_where key k set t).
Proof.
  induction t as [|r t IH]; simpl; constructor; auto.
Qed.

Lemma keys_upsert_present (r : Row) (f : Row -> Row -> Row) (t : list Row) :
  (forall old, key (f old r) = key r) ->
  has_key key (key r) t = true ->
  keys key (upsert_row key r f t) = keys key t.
Proof.
  intros Hf H. unfold upsert_row. rewrite H.
  apply keys_update_where. intros; apply Hf.
Qed.

Lemma keys_upsert_absent (r : Row) (f : Row -> Row -> Row) (t : list Row) :
  has_key key (key r) t = false ->
  keys key (upsert_row key r f t) = keys key t ++ [key r].
Proof.
  intro H. unfold upsert_row. rewrite H. unfold keys. now rewrite map_app.
Qed.

Lemma has_key_upsert (r : Row) (f : Row -> Row -> Row) (t : list Row) :
  (forall old, key (f old r) = key r) ->
  has_key key (key r) (upsert_row key r f t) = true.
Proof.
  intro Hf. apply has_key_In.
  destruct (has_key key (key r) t) eqn:E.
  - rewrite keys_upsert_present by assumption. now apply has_key_In.
  - rewrite keys_upsert_absent by assumption.
    apply in_or_app. right. now left.
Qed.

(** The upsert keeps the primary key. *)
Lemma NoDup_upsert (r : Row) (f : Row -> Row -> Row) (t : list Row) :
  (forall old, key (f old r) = key r) ->
  NoDup (keys key t) ->
  NoDup (keys key (upsert_row key r f t)).
Proof.
  intros Hf ND.
  destruct (has_key key (key r) t) eqn:E.
  - now rewrite keys_upsert_present.
  - rewrite keys_upsert_absent by assumption.
    apply has_key_not_In in E.
    apply NoDup_app; [assumption | repeat constructor; auto | ].
    intros x Hx [Hx' | []]. subst x. contradiction.
Qed.

(** What a row with the upserted key looks like afterwards. *)
Lemma In_upsert_key (r : Row) (f : Row -> Row -> Row) (t : list Row)
      (r' : Row) :
  In r' (upsert_row key r f t) -> key r' = key r ->
  (forall old, key (f old r) = key r) ->
  r' = r \/ exists old, In old t /\ key old = key r /\ r' = f old r.
Proof.
  intros Hin Hk Hf. unfold upsert_row in Hin.
  destruct (has_key key (key r) t) eqn:E.
  - apply In_update_where in Hin. destruct Hin as [old [H1 H2]].
    destruct (key old =? key r) eqn:E2.
    + apply String.eqb_eq in E2. right. exists old. auto.
    + apply String.eqb_neq in E2. subst r'. contradiction.
  - apply in_app_or in Hin. destruct Hin as [Hin | [Hin | []]].
    + apply has_key_not_In in E. exfalso. apply E.
      rewrite <- Hk. unfold keys. now apply in_map.
    + left. auto.
Qed.

(** Rows with another key are left alone by the upsert. *)
Lemma upsert_other_rows (r : Row) (f : Row -> Row -> Row) (t : list Row)
      (k : string) :
  k <> key r ->
  (forall old, key (f old r) = key r) ->
  rows_with_key key k (upsert_row key r f t) = rows_with_key key k t.
Proof.
  intros Hk Hf. unfold upsert_row.
  destruct (has_key key (key r) t).
  - unfold rows_with_key, update_where.
    induction t as [|x t IH]; simpl; [reflexivity|].
    destruct (key x =? key r) eqn:E.
    + apply String.eqb_eq in E. rewrite Hf.
      assert (E1 : (key r =? k) = false)
        by (apply String.eqb_neq; congruence).
      assert (E2 : (key x =? k) = false)
        by (apply String.eqb_neq; congruence).
      now rewrite E1, E2.
    + destruct (key x =? k); [f_equal|]; assumption.
  - rewrite rows_with_key_app. simpl.
    assert (E1 : (key r =? k) = false)
      by (apply String.eqb_neq; congruence).
    rewrite E1. apply app_nil_r.
Qed.
End TableFacts.

(** ** Running [save] *)

Section SaveRuns.
Variable isValidUUID : string -> bool.
Variable safeJSONParse : Json -> Json -> Json.
Variable toSafeDateString : Timestamp -> Timestamp.

Let save := Appointment.API.save isValidUUID safeJSONParse toSafeDateString.
Let values := Appointment.API.values safeJSONParse toSafeDateString.
Let doUpdateSet := Appointment.API.doUpdateSet toSafeDateString.

(** The complete behaviour of [save], statement by statement. *)
Lemma save_run (id : option string) (a : Appointment.EncodedT)
      (name : string) (w : World) :
  save id a name w =
  let cv := Appointment.current_visit_id a in
  let reuse := truthy cv && isValidUUID cv in
  let visitId := if reuse then cv else next_uuid w in
  let w1 := if reuse then w else bump w in
  if negb (isValidUUID cv) && has_key Visit.id visitId (visits (db w))
  then
    (Throw (UniqueViolation visits_table visitId),
     mkWorld (db w) (sql_now w) (js_now w) (uuid_source w) (uuid_next w1)
             (log w ++ [Begin; Insert visits_table visitId; Rollback]))
  else
    let rowId := target_id id a (next_uuid w1) in
    let w2 := if id_given id a then w1 else bump w1 in
    (Ok (mkInsertResult 1),
     mkWorld
       (mkDb (upsert_row AppointmentTable.id
                         (values rowId visitId (sql_now w) a)
                         (doUpdateSet (sql_now w) a)
                         (appointments (db w)))
             (if isValidUUID cv then visits (db w)
              else visits (db w) ++ [new_visit visitId a name (sql_now w)])
             (clinics (db w)) (users (db w)))
       (sql_now w) (js_now w) (uuid_source w) (uuid_next w2)
       (log w ++ Begin ::
          (if isValidUUID cv then [] else [Insert visits_table visitId]) ++
          [InsertOnConflict appointments_table rowId; Commit])).
Proof.
  unfold save, Appointment.API.save, transaction, values, doUpdateSet.
  unfold Appointment.API.insertVisit, Appointment.API.upsertAppointment,
    insert_row, new_visit, next_uuid, target_id, id_given,
    Appointment.or_else.
  destruct w as [d sn jn us un lg].
  destruct (isValidUUID (Appointment.current_visit_id a)) eqn:V;
    destruct (truthy (Appointment.current_visit_id a)) eqn:T; simpl;
    rewrite ?V, ?T; simpl; unfold bind; simpl.
  3,4: destruct (has_key Visit.id (us un) (visits d)) eqn:K; simpl.
  all: try (repeat rewrite <- app_assoc; reflexivity).
  all: destruct id as [s|]; [destruct (truthy s)|]; simpl;
    destruct (truthy (Appointment.id a)); simpl;
    repeat rewrite <- app_assoc; reflexivity.
Qed.
End SaveRuns.

(** ** The sync namespace *)

(** C1. [Sync.upsertFromDelta d] is [API.save (d.id || fresh UUID, d, "")]
    and [Sync.deleteFromDelta id] is [API.softDelete id]: same result, same
    final world, from every starting world. *)
Theorem sync_is_pass_through
        (isValidUUID : string -> bool) (safeJSONParse : Json -> Json -> Json)
        (toSafeDateString : Timestamp -> Timestamp)
        (d : Appointment.EncodedT) (id : string) (w : World) :
  Appointment.Sync.upsertFromDelta isValidUUID safeJSONParse toSafeDateString
    d w
  = save_of_delta isValidUUID safeJSONParse toSafeDateString d w
  /\ Appointment.Sync.deleteFromDelta id w = Appointment.API.softDelete id w.
Proof.
  split; [|reflexivity].
  unfold Appointment.Sync.upsertFromDelta, save_of_delta,
    Appointment.or_else, bind.
  destruct (truthy (Appointment.id d)); reflexivity.
Qed.

(** ** What the upsert writes *)

Section UpsertedRows.
Variable safeJSONParse : Json -> Json -> Json.
Variable toSafeDateString : Timestamp -> Timestamp.

Let values := Appointment.API.values safeJSONParse toSafeDateString.
Let doUpdateSet := Appointment.API.doUpdateSet toSafeDateString.

Lemma values_written (a : Appointment.EncodedT) (rowId visitId : string)
      (t : Timestamp) :
  written_by_save safeJSONParse toSafeDateString a rowId visitId t
                  (values rowId visitId t a).
Proof. unfold written_by_save. repeat split. Qed.

Lemma doUpdateSet_written (a : Appointment.EncodedT) (rowId visitId : string)
      (t : Timestamp) (old : AppointmentTable.T) :
  written_by_save safeJSONParse toSafeDateString a rowId visitId t
                  (doUpdateSet t a old (values rowId visitId t a)) /\
  AppointmentTable.server_created_at
    (doUpdateSet t a old (values rowId visitId t a))
  = AppointmentTable.server_created_at old.
Proof. unfold written_by_save. repeat split. Qed.

Lemma upsert_row_upserted (a : Appointment.EncodedT) (rowId visitId : string)
      (t : Timestamp) (before : list AppointmentTable.T) :
  appointment_upserted safeJSONParse toSafeDateString a rowId visitId t
    before
    (upsert_row AppointmentTable.id (values rowId visitId t a)
                (doUpdateSet t a) before).
Proof.
  set (proposed := values rowId visitId t a).
  assert (Hp : AppointmentTable.id proposed = rowId) by reflexivity.
  assert (Hk : forall old, AppointmentTable.id (doUpdateSet t a old proposed)
                           = AppointmentTable.id proposed) by reflexivity.
  unfold appointment_upserted.
  split; [|split; [|split; [|split]]].
  - rewrite <- Hp. now apply has_key_upsert.
  - intros row Hin Hid. rewrite <- Hp in Hid.
    destruct (In_upsert_key _ _ _ _ _ Hin Hid Hk) as [-> | [old [_ [_ ->]]]].
    + apply values_written.
    + apply doUpdateSet_written.
  - intro H. exists proposed. unfold upsert_row.
    change (AppointmentTable.id proposed) with rowId. rewrite H.
    repeat split.
  - intro H. unfold upsert_row.
    change (AppointmentTable.id proposed) with rowId. rewrite H.
    clear H. unfold update_where.
    induction before as [|x before IH]; simpl; constructor; [|exact IH].
    destruct (AppointmentTable.id x =? rowId); reflexivity.
  - intros k Hne. apply upsert_other_rows; [now rewrite Hp | exact Hk].
Qed.

End UpsertedRows.

(** ** Saving an appointment *)

(** C2. [save] runs in one transaction and writes at most twice.  With a
    valid [current_visit_id] it only upserts the appointment, under that
    visit id.  Otherwise it first inserts one visit under the next UUID and
    upserts the appointment under that visit id; should that UUID be taken
    already, the insert throws and the transaction leaves the tables as
    they were.  The upsert is one write: afterwards a row with the target id
    is there, written from the appointment with the visit id, appended if
    the id was new and in place if it was not, and rows with other ids are
    as before.  [clinics] and [users] are never written. *)
Theorem save_writes_visit_then_appointment
        (isValidUUID : string -> bool) (safeJSONParse : Json -> Json -> Json)
        (toSafeDateString : Timestamp -> Timestamp)
        (id : option string) (a : Appointment.EncodedT) (name : string)
        (w : World) :
  isValidUUID "" = false ->
  let save := Appointment.API.save isValidUUID safeJSONParse toSafeDateString in
  let values := Appointment.API.values safeJSONParse toSafeDateString in
  let doUpdateSet := Appointment.API.doUpdateSet toSafeDateString in
  let cv := Appointment.current_visit_id a in
  let w' := world_after (save id a name) w in
  (isValidUUID cv = true ->
   let rowId := target_id id a (next_uuid w) in
   result_of (save id a name) w = Ok (mkInsertResult 1) /\
   log w' = log w ++
            [Begin; InsertOnConflict appointments_table rowId; Commit] /\
   visits (db w') = visits (db w) /\
   appointments (db w') =
     upsert_row AppointmentTable.id (values rowId cv (sql_now w) a)
                (doUpdateSet (sql_now w) a) (appointments (db w)) /\
   appointment_upserted safeJSONParse toSafeDateString a rowId cv (sql_now w)
                        (appointments (db w)) (appointments (db w')))
  /\
  (isValidUUID cv = false ->
   let visitId := next_uuid w in
   let rowId := target_id id a (next_uuid (bump w)) in
   (has_key Visit.id visitId (visits (db w)) = false ->
    result_of (save id a name) w = Ok (mkInsertResult 1) /\
    log w' = log w ++
             [Begin; Insert visits_table visitId;
              InsertOnConflict appointments_table rowId; Commit] /\
    visits (db w') =
      visits (db w) ++ [new_visit visitId a name (sql_now w)] /\
    appointments (db w') =
      upsert_row AppointmentTable.id (values rowId visitId (sql_now w) a)
                 (doUpdateSet (sql_now w) a) (appointments (db w)) /\
    appointment_upserted safeJSONParse toSafeDateString a rowId visitId
                         (sql_now w)
                         (appointments (db w)) (appointments (db w')))
   /\
   (has_key Visit.id visitId (visits (db w)) = true ->
    result_of (save id a name) w =
      Throw (UniqueViolation visits_table visitId) /\
    log w' = log w ++ [Begin; Insert visits_table visitId; Rollback] /\
    db w' = db w))
  /\ clinics (db w') = clinics (db w)
  /\ users (db w') = users (db w).
Proof.
  intros Hempty save values doUpdateSet cv w'.
  subst w'. unfold result_of, world_after. subst save.
  rewrite save_run. fold cv. cbv zeta.
  assert (Hreuse : truthy cv && isValidUUID cv = isValidUUID cv).
  { unfold truthy. destruct (cv =? "") eqn:E; [|reflexivity].
    apply String.eqb_eq in E. rewrite E. now rewrite Hempty. }
  rewrite Hreuse.
  destruct (isValidUUID cv) eqn:V; simpl.
  - split; [|split; [intro; discriminate | split; reflexivity]].
    intros _. do 4 (split; [reflexivity|]).
    apply upsert_row_upserted.
  - destruct (has_key Visit.id (next_uuid w) (visits (db w))) eqn:K; simpl.
    + split; [intro; discriminate|].
      split; [|split; destruct w; reflexivity].
      intros _. split; [intro; discriminate|].
      intros _. do 2 (split; [reflexivity|]). destruct w; reflexivity.
    + split; [intro; discriminate|].
      split; [|split; reflexivity].
      intros _. split; [|intro; discriminate].
      intros _. do 4 (split; [reflexivity|]).
      apply upsert_row_upserted.
Qed.

Lemma save_writes_visit_then_appointment_witness :
  let save := Appointment.API.save Sample.isValidUUID Sample.safeJSONParse
                Sample.toSafeDateString None Sample.delta "Asha" in
  let stored := world_after save (Sample.world Sample.db1) in
  let fresh := world_after save (Sample.world Sample.empty_db) in
  Sample.isValidUUID "" = false /\
  (* the id is stored: one visit, the row rewritten in place *)
  (log stored = [Begin; Insert visits_table (Sample.uuids 0);
                 InsertOnConflict appointments_table Sample.appointment_id;
                 Commit] /\
   map Visit.id (visits (db stored)) = [Sample.uuids 0] /\
   clinics (db stored) = [Sample.clinic] /\
   (forall row, In row (appointments (db stored)) ->
                AppointmentTable.id row = Sample.appointment_id ->
                AppointmentTable.current_visit_id row = Sample.uuids 0 /\
                AppointmentTable.reason row = "follow-up")) /\
  (* the id is new: one visit, one row added to the empty table *)
  (map Visit.id (visits (db fresh)) = [Sample.uuids 0] /\
   exists row, appointments (db fresh) = [row] /\
               AppointmentTable.id row = Sample.appointment_id /\
               AppointmentTable.current_visit_id row = Sample.uuids 0).
Proof.
  cbv zeta. split; [reflexivity|]. split.
  - pose proof (save_writes_visit_then_appointment
                  Sample.isValidUUID Sample.safeJSONParse
                  Sample.toSafeDateString None Sample.delta "Asha"
                  (Sample.world Sample.db1) eq_refl) as H.
    cbv zeta in H. destruct H as (_ & H & Hc & _).
    destruct (H eq_refl) as [Hfree _].
    destruct (Hfree eq_refl) as (_ & Hlog & Hv & _ & Hup).
    destruct Hup as (_ & Hrows & _).
    split; [exact Hlog|]. split; [rewrite Hv; reflexivity|].
    split; [exact Hc|].
    intros row Hin Hid. destruct (Hrows row Hin Hid) as (_ & Hcv & Hrest).
    split; [exact Hcv|].
    destruct Hrest as (_ & _ & _ & _ & _ & _ & _ & Hreason & _).
    exact Hreason.
  - pose proof (save_writes_visit_then_appointment
                  Sample.isValidUUID Sample.safeJSONParse
                  Sample.toSafeDateString None Sample.delta "Asha"
                  (Sample.world Sample.empty_db) eq_refl) as H.
    cbv zeta in H. destruct H as (_ & H & _).
    destruct (H eq_refl) as [Hfree _].
    destruct (Hfree eq_refl) as (_ & _ & Hv & _ & Hup).
    destruct Hup as (_ & Hrows & Hnew & _).
    split; [rewrite Hv; reflexivity|].
    destruct (Hnew eq_refl) as [row (Hafter & Hid & _)].
    exists row. split; [exact Hafter|]. split; [exact Hid|].
    assert (Hin : In row
                     (appointments
                        (db (world_after
                               (Appointment.API.save Sample.isValidUUID
                                  Sample.safeJSONParse
                                  Sample.toSafeDateString None Sample.delta
                                  "Asha")
                               (Sample.world Sample.empty_db)))))
      by (rewrite Hafter; now left).
    destruct (Hrows row Hin Hid) as (_ & Hcv & _). exact Hcv.
Defined.

(** ** Soft deletion *)

Lemma registered_in_spec (id : string) (u : User.T) :
  Clinic.registered_in id u = true <-> registered_user id u.
Proof.
  unfold Clinic.registered_in, registered_user.
  destruct (User.clinic_id u) as [c|]; simpl.
  - rewrite andb_true_iff, String.eqb_eq.
    destruct (User.is_deleted u); simpl; split.
    + intros [_ H]; discriminate.
    + intros [_ H]; discriminate.
    + intros [H _]; split; congruence.
    + intros [H _]; split; congruence.
  - split; [discriminate | intros [H _]; discriminate].
Qed.

Lemma clinic_softDelete_run (id : string) (w : World) :
  Clinic.softDelete id w =
  let n := length (filter (Clinic.registered_in id) (users (db w))) in
  if (0 <? n)%nat
  then (Throw (ClinicHasUsers id n),
        mkWorld (db w) (sql_now w) (js_now w) (uuid_source w) (uuid_next w)
                (log w ++ [Select users_table]))
  else (Ok tt,
        mkWorld (set_clinics (db w)
                   (update_where ClinicTable.id id
                      (Clinic.mark_deleted (js_now w)) (clinics (db w))))
                (sql_now w) (js_now w) (uuid_source w) (uuid_next w)
                (log w ++ [Select users_table; Update clinics_table id])).
Proof.
  unfold Clinic.softDelete, bind, exec, getDb, newDate, putDb, with_db, throw.
  simpl.
  destruct (0 <? length (filter (Clinic.registered_in id) (users (db w))))%nat;
    simpl; [reflexivity|].
  now rewrite <- app_assoc.
Qed.

Lemma no_registered_user (id : string) (us : list User.T) :
  (0 <? length (filter (Clinic.registered_in id) us))%nat = false <->
  ~ exists u, In u us /\ registered_user id u.
Proof.
  split.
  - intros H [u [Hin Hu]].
    apply registered_in_spec in Hu.
    assert (Hf : In u (filter (Clinic.registered_in id) us))
      by (apply filter_In; auto).
    destruct (filter (Clinic.registered_in id) us); [contradiction|].
    discriminate.
  - intro H.
    destruct (filter (Clinic.registered_in id) us) as [|u rest] eqn:E;
      [reflexivity|].
    exfalso. apply H. exists u.
    assert (Hf : In u (filter (Clinic.registered_in id) us))
      by (rewrite E; now left).
    apply filter_In in Hf. destruct Hf as [Hin Hu].
    split; [assumption | now apply registered_in_spec].
Qed.

(** C3. [Clinic.softDelete id] starts with one query on [users].  If a
    user that is not deleted has [clinic_id = id] it throws and the database
    is as before, the [clinics] table included; if there is none it sends one
    update that sets [is_deleted] and [deleted_at] on the clinic [id]. *)
Theorem clinic_softDelete_guard (id : string) (w : World) :
  let w' := world_after (Clinic.softDelete id) w in
  ((exists u, In u (users (db w)) /\ registered_user id u) ->
   (exists n, (0 < n)%nat /\
      result_of (Clinic.softDelete id) w = Throw (ClinicHasUsers id n)) /\
   log w' = log w ++ [Select users_table] /\
   clinics (db w') = clinics (db w) /\
   db w' = db w)
  /\
  ((~ exists u, In u (users (db w)) /\ registered_user id u) ->
   result_of (Clinic.softDelete id) w = Ok tt /\
   log w' = log w ++ [Select users_table; Update clinics_table id] /\
   clinics (db w') =
     update_where ClinicTable.id id (Clinic.mark_deleted (js_now w))
                  (clinics (db w)) /\
   (forall c, In c (clinics (db w')) -> ClinicTable.id c = id ->
      ClinicTable.is_deleted c = true /\
      ClinicTable.deleted_at c = Some (js_now w))).
Proof.
  intro w'. subst w'. unfold result_of, world_after.
  rewrite clinic_softDelete_run. cbv zeta.
  destruct (0 <? length (filter (Clinic.registered_in id) (users (db w))))%nat
    eqn:E; simpl; split.
  - intros _. repeat split; auto.
    eexists; split; [|reflexivity]. now apply Nat.ltb_lt.
  - intro H. apply no_registered_user in H. congruence.
  - intro H. apply no_registered_user in E. contradiction.
  - intros _. repeat split; auto.
    + apply In_update_where in H. destruct H as [old [_ ->]].
      destruct (ClinicTable.id old =? id) eqn:K; [reflexivity|].
      apply String.eqb_neq in K. contradiction.
    + apply In_update_where in H. destruct H as [old [_ ->]].
      destruct (ClinicTable.id old =? id) eqn:K; [reflexivity|].
      apply String.eqb_neq in K. contradiction.
Qed.

Lemma clinic_softDelete_guard_witness :
  (exists u, In u (users Sample.db1) /\ registered_user Sample.clinic_id u) /\
  clinics (db (world_after (Clinic.softDelete Sample.clinic_id)
                 (Sample.world Sample.db1)))
  = [Sample.clinic] /\
  (~ exists u, In u (users Sample.db2) /\ registered_user Sample.clinic_id u) /\
  map ClinicTable.is_deleted
      (clinics (db (world_after (Clinic.softDelete Sample.clinic_id)
                      (Sample.world Sample.db2))))
  = [true].
Proof.
  assert (H1 : exists u, In u (users Sample.db1) /\
                         registered_user Sample.clinic_id u).
  { exists Sample.nurse. split; [now left | split; reflexivity]. }
  assert (H2 : ~ exists u, In u (users Sample.db2) /\
                           registered_user Sample.clinic_id u).
  { intros [u [[<- | []] [_ Hd]]]. discriminate. }
  split; [exact H1|]. split.
  - destruct (clinic_softDelete_guard Sample.clinic_id
                (Sample.world Sample.db1)) as [Hthrow _].
    destruct (Hthrow H1) as (_ & _ & Hc & _). exact Hc.
  - split; [exact H2|].
    destruct (clinic_softDelete_guard Sample.clinic_id
                (Sample.world Sample.db2)) as [_ Hok].
    destruct (Hok H2) as (_ & _ & Hc & _). rewrite Hc. reflexivity.
Defined.

Lemma appointment_softDelete_run (id : string) (w : World) :
  Appointment.API.softDelete id w =
  (Ok [mkUpdateResult
         (length (rows_with_key AppointmentTable.id id
                                (appointments (db w))))],
   mkWorld (set_appointments (db w)
              (update_where AppointmentTable.id id
                 (Appointment.API.mark_deleted (sql_now w))
                 (appointments (db w))))
           (sql_now w) (js_now w) (uuid_source w) (uuid_next w)
           (log w ++ [Update appointments_table id])).
Proof. reflexivity. Qed.

Lemma clinic_mark_deleted_frame (t : Timestamp) (c : ClinicTable.T) :
  clinic_soft_deleted t c (Clinic.mark_deleted t c).
Proof. unfold clinic_soft_deleted. repeat split. Qed.

Lemma appointment_mark_deleted_frame (t : Timestamp) (r : AppointmentTable.T) :
  appointment_soft_deleted t r (Appointment.API.mark_deleted t r).
Proof. unfold appointment_soft_deleted. repeat split. Qed.

Lemma Forall2_weaken {A B} (P Q : A -> B -> Prop) (l : list A) (l' : list B) :
  (forall a b, P a b -> Q a b) -> Forall2 P l l' -> Forall2 Q l l'.
Proof. intros HPQ H. induction H; constructor; auto. Qed.

(** C6. A soft delete removes nothing.  After [Clinic.softDelete id] the
    [clinics] table has the same rows in the same order, where a row with
    another id is untouched and a row with this id has only [is_deleted] and
    [deleted_at] set (to true and the server's current time), or, when the
    call throws, the database is as before.  After
    [Appointment.API.softDelete id] the same holds of [appointments], with
    [updated_at] and [last_modified] set as well.  No other table changes. *)
Theorem soft_delete_keeps_rows (id : string) (w : World) :
  let wc := world_after (Clinic.softDelete id) w in
  let wa := world_after (Appointment.API.softDelete id) w in
  match result_of (Clinic.softDelete id) w with
  | Ok _ =>
      Forall2 (fun old new =>
                 if ClinicTable.id old =? id
                 then clinic_soft_deleted (js_now w) old new
                 else new = old)
              (clinics (db w)) (clinics (db wc)) /\
      keys ClinicTable.id (clinics (db wc))
      = keys ClinicTable.id (clinics (db w)) /\
      appointments (db wc) = appointments (db w) /\
      visits (db wc) = visits (db w) /\
      users (db wc) = users (db w)
  | Throw _ => db wc = db w
  end
  /\
  (exists res, result_of (Appointment.API.softDelete id) w = Ok res) /\
  Forall2 (fun old new =>
             if AppointmentTable.id old =? id
             then appointment_soft_deleted (sql_now w) old new
             else new = old)
          (appointments (db w)) (appointments (db wa)) /\
  keys AppointmentTable.id (appointments (db wa))
  = keys AppointmentTable.id (appointments (db w)) /\
  clinics (db wa) = clinics (db w) /\
  visits (db wa) = visits (db w) /\
  users (db wa) = users (db w).
Proof.
  intros wc wa. subst wc wa. unfold result_of, world_after.
  rewrite clinic_softDelete_run, appointment_softDelete_run. cbv zeta.
  split.
  - destruct (0 <? length (filter (Clinic.registered_in id) (users (db w))))%nat;
      simpl; [reflexivity|].
    repeat split.
    + eapply Forall2_weaken; [|apply update_where_Forall2].
      intros old new ->. simpl.
      destruct (ClinicTable.id old =? id); [|reflexivity].
      apply clinic_mark_deleted_frame.
    + apply keys_update_where. intros r Hr. exact Hr.
  - simpl. repeat split.
    + eexists. reflexivity.
    + eapply Forall2_weaken; [|apply update_where_Forall2].
      intros old new ->. simpl.
      destruct (AppointmentTable.id old =? id); [|reflexivity].
      apply appointment_mark_deleted_frame.
    + apply keys_update_where. intros r Hr. exact Hr.
Qed.

(** ** The appointment upsert *)

Section SaveFacts.
Variable isValidUUID : string -> bool.
Variable safeJSONParse : Json -> Json -> Json.
Variable toSafeDateString : Timestamp -> Timestamp.

Let save := Appointment.API.save isValidUUID safeJSONParse toSafeDateString.
Let values := Appointment.API.values safeJSONParse toSafeDateString.
Let doUpdateSet := Appointment.API.doUpdateSet toSafeDateString.

(** A successful [save] has upserted the proposed row. *)
Lemma save_ok (id : option string) (a : Appointment.EncodedT) (name : string)
      (w : World) (r : InsertResult) :
  result_of (save id a name) w = Ok r ->
  r = mkInsertResult 1 /\
  appointments (db (world_after (save id a name) w)) =
  upsert_row AppointmentTable.id
    (values (saved_id isValidUUID id a w) (saved_visit_id isValidUUID a w)
            (sql_now w) a)
    (doUpdateSet (sql_now w) a) (appointments (db w)).
Proof.
  unfold result_of, world_after, save. rewrite save_run. cbv zeta.
  unfold saved_id, saved_visit_id.
  destruct (negb (isValidUUID (Appointment.current_visit_id a)) &&
            has_key Visit.id _ (visits (db w))); simpl; intro H.
  - discriminate.
  - split; [congruence | reflexivity].
Qed.

(** A failed [save] failed on the visit, and changed no table. *)
Lemma save_throw (id : option string) (a : Appointment.EncodedT)
      (name : string) (w : World) (e : Error) :
  result_of (save id a name) w = Throw e ->
  e = UniqueViolation visits_table (next_uuid w) /\
  isValidUUID (Appointment.current_visit_id a) = false /\
  has_key Visit.id (next_uuid w) (visits (db w)) = true /\
  db (world_after (save id a name) w) = db w.
Proof.
  unfold result_of, world_after, save. rewrite save_run. cbv zeta.
  destruct (isValidUUID (Appointment.current_visit_id a)) eqn:V.
  - simpl. discriminate.
  - rewrite andb_false_r. simpl.
    destruct (has_key Visit.id (next_uuid w) (visits (db w))) eqn:K; simpl.
    + intro H. repeat split. congruence.
    + discriminate.
Qed.

(** [save] succeeds unless it has to insert a visit whose id is taken. *)
Lemma save_succeeds (id : option string) (a : Appointment.EncodedT)
      (name : string) (w : World) :
  (isValidUUID (Appointment.current_visit_id a) = false ->
   has_key Visit.id (next_uuid w) (visits (db w)) = false) ->
  result_of (save id a name) w = Ok (mkInsertResult 1).
Proof.
  intro H. unfold result_of, save. rewrite save_run. cbv zeta.
  destruct (isValidUUID (Appointment.current_visit_id a)) eqn:V.
  - reflexivity.
  - rewrite andb_false_r. simpl. rewrite H; reflexivity.
Qed.

End SaveFacts.

Lemma Forall2_single {A B} (P : A -> B -> Prop) (x : A) (l : list B) :
  Forall2 P [x] l -> exists y, l = [y] /\ P x y.
Proof.
  intro H. inversion H as [|? y ? l' Hxy Hrest]; subst.
  inversion Hrest; subst. exists y. auto.
Qed.

(** C5. The appointment write is an upsert on the primary key.  Where a
    plain insert of the proposed row would be refused because the id is
    taken, [save] succeeds (a failed [save] failed on the visit).  After a
    successful [save], in a table whose ids were unique, exactly one row has
    the target id and ids are still unique.  If a row had the id, the table
    has the same rows in the same places, and that row now holds the
    appointment's columns, the visit id and the database's current time,
    with [is_deleted] false, and only [server_created_at] as it was; if none
    had it, the row written from the appointment was added.  Rows with
    another id are as before. *)
Theorem save_upserts_on_id
        (isValidUUID : string -> bool) (safeJSONParse : Json -> Json -> Json)
        (toSafeDateString : Timestamp -> Timestamp)
        (id : option string) (a : Appointment.EncodedT) (name : string)
        (w : World) :
  NoDup (keys AppointmentTable.id (appointments (db w))) ->
  let save := Appointment.API.save isValidUUID safeJSONParse toSafeDateString in
  let values := Appointment.API.values safeJSONParse toSafeDateString in
  let doUpdateSet := Appointment.API.doUpdateSet toSafeDateString in
  let rowId := saved_id isValidUUID id a w in
  let visitId := saved_visit_id isValidUUID a w in
  let proposed := values rowId visitId (sql_now w) a in
  let written :=
    written_by_save safeJSONParse toSafeDateString a rowId visitId
                    (sql_now w) in
  let before := appointments (db w) in
  let after := appointments (db (world_after (save id a name) w)) in
  (has_key AppointmentTable.id rowId before = true ->
   insert_row AppointmentTable.id proposed before = None /\
   (visit_id_free isValidUUID a w ->
    result_of (save id a name) w = Ok (mkInsertResult 1))) /\
  (forall e, result_of (save id a name) w = Throw e ->
             exists k, e = UniqueViolation visits_table k) /\
  (forall r, result_of (save id a name) w = Ok r ->
     length (rows_with_key AppointmentTable.id rowId after) = 1%nat /\
     NoDup (keys AppointmentTable.id after) /\
     (forall row, In row after -> AppointmentTable.id row = rowId ->
                  written row) /\
     (has_key AppointmentTable.id rowId before = true ->
      keys AppointmentTable.id after = keys AppointmentTable.id before /\
      after = update_where AppointmentTable.id rowId
                (fun old => doUpdateSet (sql_now w) a old proposed) before /\
      Forall2 (fun old new =>
                 if AppointmentTable.id old =? rowId
                 then written new /\
                      AppointmentTable.server_created_at new
                      = AppointmentTable.server_created_at old
                 else new = old)
              before after) /\
     (has_key AppointmentTable.id rowId before = false ->
      after = before ++ [proposed] /\
      written proposed /\
      AppointmentTable.server_created_at proposed = sql_now w) /\
     (forall k, k <> rowId ->
        rows_with_key AppointmentTable.id k after
        = rows_with_key AppointmentTable.id k before)).
Proof.
  intros ND save values doUpdateSet rowId visitId proposed written
         before after.
  assert (Hk : forall old,
             AppointmentTable.id (doUpdateSet (sql_now w) a old proposed)
             = AppointmentTable.id proposed) by reflexivity.
  assert (Hp : AppointmentTable.id proposed = rowId) by reflexivity.
  split; [|split].
  - intro H. split.
    + unfold insert_row. rewrite Hp. fold before. now rewrite H.
    + intro Hfree. now apply save_succeeds.
  - intros e He. apply save_throw in He. destruct He as [-> _]. eauto.
  - intros r Hr. apply save_ok in Hr. destruct Hr as [_ Hafter].
    subst after. fold save in Hafter. rewrite Hafter.
    fold values doUpdateSet rowId visitId proposed before.
    split; [|split; [|split; [|split; [|split]]]].
    + rewrite <- Hp. apply rows_with_key_unique.
      * now apply NoDup_upsert.
      * now apply has_key_upsert.
    + now apply NoDup_upsert.
    + intros row Hin Hid. rewrite <- Hp in Hid.
      destruct (In_upsert_key _ _ _ _ _ Hin Hid Hk)
        as [-> | [old [_ [_ ->]]]].
      * apply values_written.
      * apply doUpdateSet_written.
    + intro H. split; [|split].
      * rewrite <- Hp in H. now apply keys_upsert_present.
      * unfold upsert_row. rewrite Hp, H. reflexivity.
      * unfold upsert_row. rewrite Hp, H. clear H. unfold update_where.
        induction before as [|x rest IH]; simpl; constructor.
        -- destruct (AppointmentTable.id x =? rowId); [|reflexivity].
           apply doUpdateSet_written.
        -- exact IH.
    + intro H. split; [|split].
      * unfold upsert_row. rewrite Hp, H. reflexivity.
      * apply values_written.
      * reflexivity.
    + intros k Hk'. apply upsert_other_rows; [now rewrite Hp | exact Hk].
Qed.

Lemma save_upserts_on_id_witness :
  let save := Appointment.API.save Sample.isValidUUID Sample.safeJSONParse
                Sample.toSafeDateString None Sample.delta "Asha" in
  let w := Sample.world Sample.db1 in
  let after := appointments (db (world_after save w)) in
  (NoDup (keys AppointmentTable.id (appointments (db w))) /\
   has_key AppointmentTable.id Sample.appointment_id (appointments (db w))
   = true /\
   visit_id_free Sample.isValidUUID Sample.delta w) /\
  map AppointmentTable.reason (appointments (db w)) = ["check-up"] /\
  result_of save w = Ok (mkInsertResult 1) /\
  exists row,
    after = [row] /\
    AppointmentTable.id row = Sample.appointment_id /\
    AppointmentTable.reason row = "follow-up" /\
    AppointmentTable.current_visit_id row = Sample.uuids 0 /\
    AppointmentTable.last_modified row = sql_now w /\
    AppointmentTable.server_created_at row
    = AppointmentTable.server_created_at Sample.stored.
Proof.
  cbv zeta.
  assert (ND : NoDup (keys AppointmentTable.id
                           (appointments (db (Sample.world Sample.db1))))).
  { repeat constructor. intros []. }
  assert (F : visit_id_free Sample.isValidUUID Sample.delta
                (Sample.world Sample.db1)) by (intros _; reflexivity).
  split; [repeat split; assumption|]. split; [reflexivity|].
  pose proof (@save_upserts_on_id Sample.isValidUUID Sample.safeJSONParse
                Sample.toSafeDateString None Sample.delta "Asha"
                (Sample.world Sample.db1) ND) as H.
  cbv zeta in H. destruct H as (Hconflict & _ & H).
  destruct (Hconflict eq_refl) as [_ Hok].
  split; [exact (Hok F)|].
  destruct (H (mkInsertResult 1) (Hok F)) as (_ & _ & _ & Hupd & _).
  destruct (Hupd eq_refl) as (_ & _ & HF).
  apply Forall2_single in HF. destruct HF as [row [Hafter Hrow]].
  simpl in Hrow. destruct Hrow as [Hw Hsca].
  destruct Hw as (Hid & Hcv & _ & _ & _ & _ & _ & _ & _ & Hreason & _ & _
                  & _ & _ & _ & _ & Hlm & _).
  exists row. repeat split; assumption.
Defined.

(** C7. After a successful [save] the table has a row with the target id,
    and every such row carries the database's current time in
    [last_modified]: the row that was appended when the id was new, and the
    row that was updated in place when the id was there already. *)
Theorem save_stamps_last_modified
        (isValidUUID : string -> bool) (safeJSONParse : Json -> Json -> Json)
        (toSafeDateString : Timestamp -> Timestamp)
        (id : option string) (a : Appointment.EncodedT) (name : string)
        (w : World) (r : InsertResult) :
  let save := Appointment.API.save isValidUUID safeJSONParse toSafeDateString in
  let rowId := saved_id isValidUUID id a w in
  let before := appointments (db w) in
  let after := appointments (db (world_after (save id a name) w)) in
  result_of (save id a name) w = Ok r ->
  has_key AppointmentTable.id rowId after = true /\
  (forall row, In row after -> AppointmentTable.id row = rowId ->
               AppointmentTable.last_modified row = sql_now w) /\
  (has_key AppointmentTable.id rowId before = false ->
   exists row, after = before ++ [row] /\
               AppointmentTable.id row = rowId /\
               AppointmentTable.last_modified row = sql_now w) /\
  (has_key AppointmentTable.id rowId before = true ->
   length after = length before /\
   Forall2 (fun old new =>
              if AppointmentTable.id old =? rowId
              then AppointmentTable.last_modified new = sql_now w
              else new = old)
           before after).
Proof.
  intros save rowId before after Hr.
  apply save_ok in Hr. destruct Hr as [_ Hafter].
  subst after. fold save in Hafter. rewrite Hafter. clear Hafter.
  set (proposed := Appointment.API.values safeJSONParse toSafeDateString
                     (saved_id isValidUUID id a w)
                     (saved_visit_id isValidUUID a w) (sql_now w) a).
  set (oc := Appointment.API.doUpdateSet toSafeDateString (sql_now w) a).
  assert (Hk : forall old, AppointmentTable.id (oc old proposed)
                           = AppointmentTable.id proposed) by reflexivity.
  assert (Hp : AppointmentTable.id proposed = rowId) by reflexivity.
  repeat split.
  - rewrite <- Hp. now apply has_key_upsert.
  - intros row Hin Hid. rewrite <- Hp in Hid.
    destruct (In_upsert_key _ _ _ _ _ Hin Hid Hk) as [-> | [old [_ [_ ->]]]];
      reflexivity.
  - intro H. exists proposed.
    change (has_key AppointmentTable.id (AppointmentTable.id proposed)
                    (appointments (db w)) = false) in H.
    unfold upsert_row. rewrite H. repeat split.
  - change (has_key AppointmentTable.id (AppointmentTable.id proposed)
                    (appointments (db w)) = true) in H.
    unfold upsert_row. rewrite H. apply length_update_where.
  - change (has_key AppointmentTable.id (AppointmentTable.id proposed)
                    (appointments (db w)) = true) in H.
    unfold upsert_row. rewrite H.
    eapply Forall2_weaken; [|apply update_where_Forall2].
    intros old new ->. cbv beta.
    change (AppointmentTable.id proposed) with rowId.
    destruct (AppointmentTable.id old =? rowId); reflexivity.
Qed.

Lemma save_stamps_last_modified_witness :
  let save := Appointment.API.save Sample.isValidUUID Sample.safeJSONParse
                Sample.toSafeDateString None Sample.delta "Asha" in
  let w := Sample.world Sample.db1 in
  let after := appointments (db (world_after save w)) in
  result_of save w = Ok (mkInsertResult 1) /\
  has_key AppointmentTable.id Sample.appointment_id after = true /\
  (forall row, In row after ->
               AppointmentTable.id row = Sample.appointment_id ->
               AppointmentTable.last_modified row = sql_now w).
Proof.
  cbv zeta. split; [reflexivity|].
  destruct (save_stamps_last_modified Sample.isValidUUID
              Sample.safeJSONParse Sample.toSafeDateString None
              Sample.delta "Asha" (Sample.world Sample.db1) eq_refl)
    as (H1 & H2 & _).
  split; [exact H1 | exact H2].
Defined.

(** ** Applying a delta *)

Section DeltaFacts.
Variable isValidUUID : string -> bool.
Variable safeJSONParse : Json -> Json -> Json.
Variable toSafeDateString : Timestamp -> Timestamp.

Let save := Appointment.API.save isValidUUID safeJSONParse toSafeDateString.
Let upsertFromDelta :=
  Appointment.Sync.upsertFromDelta isValidUUID safeJSONParse toSafeDateString.

Lemma upsertFromDelta_given_id (d : Appointment.EncodedT) (w : World) :
  truthy (Appointment.id d) = true ->
  upsertFromDelta d w = save (Some (Appointment.id d)) d "" w.
Proof.
  intro H. unfold upsertFromDelta, Appointment.Sync.upsertFromDelta,
             Appointment.or_else, bind.
  now rewrite H.
Qed.

Lemma upsertFromDelta_fresh_id (d : Appointment.EncodedT) (w : World) :
  truthy (Appointment.id d) = false ->
  upsertFromDelta d w = save (Some (next_uuid w)) d "" (bump w).
Proof.
  intro H. unfold upsertFromDelta, Appointment.Sync.upsertFromDelta,
             Appointment.or_else, bind.
  now rewrite H.
Qed.

Lemma saved_id_given (d : Appointment.EncodedT) (w : World) :
  truthy (Appointment.id d) = true ->
  saved_id isValidUUID (Some (Appointment.id d)) d w = Appointment.id d.
Proof. intro H. unfold saved_id, target_id. now rewrite H. Qed.

Lemma save_log (id : option string) (a : Appointment.EncodedT) (name : string)
      (w : World) (r : InsertResult) :
  result_of (save id a name) w = Ok r ->
  log (world_after (save id a name) w)
  = log w ++ save_statements isValidUUID a (saved_id isValidUUID id a w) w.
Proof.
  unfold result_of, world_after, save, save_statements, saved_id.
  rewrite save_run. cbv zeta.
  destruct (isValidUUID (Appointment.current_visit_id a)) eqn:V.
  - rewrite andb_true_r. simpl. intros _.
    destruct (truthy (Appointment.current_visit_id a)); reflexivity.
  - rewrite andb_false_r. simpl.
    destruct (has_key Visit.id (next_uuid w) (visits (db w))); simpl.
    + discriminate.
    + reflexivity.
Qed.

(** One application of a delta that names a stored row. *)
Lemma delta_applied (d : Appointment.EncodedT) (w : World) :
  truthy (Appointment.id d) = true ->
  safeJSONParse (Appointment.metadata d) emptyObject = Appointment.metadata d ->
  visit_id_free isValidUUID d w ->
  let w' := world_after (upsertFromDelta d) w in
  result_of (upsertFromDelta d) w = Ok (mkInsertResult 1) /\
  log w' = log w ++ save_statements isValidUUID d (Appointment.id d) w /\
  has_key AppointmentTable.id (Appointment.id d) (appointments (db w')) = true /\
  (forall row, In row (appointments (db w')) ->
               AppointmentTable.id row = Appointment.id d ->
               same_content d row).
Proof.
  intros Hid Hmeta Hfree w'. subst w'.
  unfold result_of, world_after. rewrite upsertFromDelta_given_id by assumption.
  fold (result_of (save (Some (Appointment.id d)) d "") w).
  fold (world_after (save (Some (Appointment.id d)) d "") w).
  assert (Hok : result_of (save (Some (Appointment.id d)) d "") w
                = Ok (mkInsertResult 1))
    by (apply save_succeeds; exact Hfree).
  split; [exact Hok|].
  split; [rewrite (save_log _ _ _ _ Hok); now rewrite saved_id_given|].
  destruct (save_ok _ _ _ _ _ _ _ Hok) as [_ Hafter].
  fold save in Hafter. rewrite Hafter. rewrite saved_id_given by assumption.
  split.
  - apply (has_key_upsert AppointmentTable.id
             (Appointment.API.values safeJSONParse toSafeDateString
                (Appointment.id d) (saved_visit_id isValidUUID d w)
                (sql_now w) d)).
    reflexivity.
  - intros row Hin Heq.
    destruct (In_upsert_key AppointmentTable.id _ _ _ _ Hin Heq)
      as [-> | [old [_ [_ ->]]]]; [reflexivity | | ];
      unfold same_content; simpl; rewrite Hmeta; repeat split.
Qed.

End DeltaFacts.

(** C4. A delta that names a stored appointment overwrites it: whatever the
    stored row held, after [upsertFromDelta] every row with the delta's id
    carries the delta's content, and the log shows the upsert.  Applying the
    same delta again sends the same upsert again, with the same outcome.
    The metadata is stored as [safeJSONParse] returns it, so it is the
    delta's when that helper hands the delta's metadata through. *)
Theorem upsertFromDelta_last_writer_wins
        (isValidUUID : string -> bool) (safeJSONParse : Json -> Json -> Json)
        (toSafeDateString : Timestamp -> Timestamp)
        (d : Appointment.EncodedT) (w : World) :
  let upsert := Appointment.Sync.upsertFromDelta isValidUUID safeJSONParse
                  toSafeDateString d in
  let w1 := world_after upsert w in
  let w2 := world_after upsert w1 in
  truthy (Appointment.id d) = true ->
  has_key AppointmentTable.id (Appointment.id d) (appointments (db w)) = true ->
  safeJSONParse (Appointment.metadata d) emptyObject = Appointment.metadata d ->
  visit_id_free isValidUUID d w ->
  (result_of upsert w = Ok (mkInsertResult 1) /\
   log w1 = log w ++ save_statements isValidUUID d (Appointment.id d) w /\
   length (appointments (db w1)) = length (appointments (db w)) /\
   has_key AppointmentTable.id (Appointment.id d) (appointments (db w1))
   = true /\
   (forall row, In row (appointments (db w1)) ->
                AppointmentTable.id row = Appointment.id d ->
                same_content d row))
  /\
  (visit_id_free isValidUUID d w1 ->
   result_of upsert w1 = Ok (mkInsertResult 1) /\
   log w2 = log w ++ save_statements isValidUUID d (Appointment.id d) w
                  ++ save_statements isValidUUID d (Appointment.id d) w1 /\
   length (appointments (db w2)) = length (appointments (db w)) /\
   (forall row, In row (appointments (db w2)) ->
                AppointmentTable.id row = Appointment.id d ->
                same_content d row)).
Proof.
  intros upsert w1 w2 Hid Hstored Hmeta Hfree.
  assert (Hlen : forall w0,
             has_key AppointmentTable.id (Appointment.id d)
                     (appointments (db w0)) = true ->
             visit_id_free isValidUUID d w0 ->
             length (appointments (db (world_after upsert w0)))
             = length (appointments (db w0))).
  { intros w0 Hk Hf. unfold upsert, world_after.
    rewrite upsertFromDelta_given_id by assumption.
    assert (Hok := save_succeeds isValidUUID safeJSONParse toSafeDateString
                     (Some (Appointment.id d)) d "" w0 Hf).
    destruct (save_ok _ _ _ _ _ _ _ Hok) as [_ Hafter].
    unfold world_after in Hafter. rewrite Hafter.
    rewrite saved_id_given by assumption.
    unfold upsert_row. simpl. rewrite Hk. apply length_update_where. }
  destruct (@delta_applied isValidUUID safeJSONParse toSafeDateString
              d w Hid Hmeta Hfree) as (R1 & L1 & K1 & S1).
  fold upsert in R1, L1, K1, S1. fold w1 in L1, K1, S1.
  split.
  - split; [exact R1|]. split; [exact L1|]. split; [now apply Hlen|].
    split; [exact K1 | exact S1].
  - intro Hfree1.
    destruct (@delta_applied isValidUUID safeJSONParse toSafeDateString
                d w1 Hid Hmeta Hfree1) as (R2 & L2 & K2 & S2).
    fold upsert in R2, L2, K2, S2. fold w2 in L2, K2, S2.
    split; [exact R2|]. split; [|split; [|exact S2]].
    + rewrite L2, L1. now rewrite <- app_assoc.
    + unfold w2. rewrite Hlen by assumption. now apply Hlen.
Qed.

Lemma upsertFromDelta_last_writer_wins_witness :
  let upsert := Appointment.Sync.upsertFromDelta Sample.isValidUUID
                  Sample.safeJSONParse Sample.toSafeDateString Sample.delta in
  let w := Sample.world Sample.db1 in
  let w1 := world_after upsert w in
  let w2 := world_after upsert w1 in
  (truthy (Appointment.id Sample.delta) = true /\
   has_key AppointmentTable.id (Appointment.id Sample.delta)
           (appointments (db w)) = true /\
   Sample.safeJSONParse (Appointment.metadata Sample.delta) emptyObject
   = Appointment.metadata Sample.delta /\
   visit_id_free Sample.isValidUUID Sample.delta w /\
   visit_id_free Sample.isValidUUID Sample.delta w1) /\
  (forall row, In row (appointments (db w1)) ->
               AppointmentTable.id row = Sample.appointment_id ->
               same_content Sample.delta row) /\
  log w2 = [Begin; Insert visits_table (Sample.uuids 0);
            InsertOnConflict appointments_table Sample.appointment_id;
            Commit;
            Begin; Insert visits_table (Sample.uuids 1);
            InsertOnConflict appointments_table Sample.appointment_id;
            Commit] /\
  (forall row, In row (appointments (db w2)) ->
               AppointmentTable.id row = Sample.appointment_id ->
               same_content Sample.delta row).
Proof.
  cbv zeta.
  assert (F0 : visit_id_free Sample.isValidUUID Sample.delta
                 (Sample.world Sample.db1)) by (intros _; reflexivity).
  assert (F1 : visit_id_free Sample.isValidUUID Sample.delta
                 (world_after
                    (Appointment.Sync.upsertFromDelta Sample.isValidUUID
                       Sample.safeJSONParse Sample.toSafeDateString
                       Sample.delta)
                    (Sample.world Sample.db1))) by (intros _; reflexivity).
  split; [repeat split; assumption|].
  destruct (@upsertFromDelta_last_writer_wins Sample.isValidUUID
              Sample.safeJSONParse Sample.toSafeDateString Sample.delta
              (Sample.world Sample.db1) eq_refl eq_refl eq_refl F0)
    as [(_ & _ & _ & _ & Hrows1) H2].
  destruct (H2 F1) as (_ & L2 & _ & Hrows2).
  split; [exact Hrows1|]. split; [exact L2 | exact Hrows2].
Defined.

(** ** Saving a clinic *)

Lemma insertClinic_run (name : string) (w : World) :
  Clinic.insertClinic name w =
  let clinicId := next_uuid w in
  if has_key ClinicTable.id clinicId (clinics (db w))
  then (Throw (UniqueViolation clinics_table clinicId),
        mkWorld (db w) (sql_now w) (js_now w) (uuid_source w)
                (S (uuid_next w))
                (log w ++ [Insert clinics_table clinicId]))
  else (Ok tt,
        mkWorld (set_clinics (db w)
                   (clinics (db w) ++ [new_clinic clinicId name (sql_now w)]))
                (sql_now w) (js_now w) (uuid_source w) (S (uuid_next w))
                (log w ++ [Insert clinics_table clinicId])).
Proof.
  unfold Clinic.insertClinic, bind, uuidV1, now, exec, getDb, insert_row,
    next_uuid, new_clinic. simpl.
  destruct (has_key ClinicTable.id (uuid_source w (uuid_next w))
                    (clinics (db w))); reflexivity.
Qed.

Lemma updateClinic_run (id name : string) (w : World) :
  Clinic.updateClinic id name w =
  (Ok tt,
   mkWorld (set_clinics (db w)
              (update_where ClinicTable.id id (Clinic.rename name)
                            (clinics (db w))))
           (sql_now w) (js_now w) (uuid_source w) (uuid_next w)
           (log w ++ [Update clinics_table id])).
Proof. reflexivity. Qed.

Lemma save_without_usable_id (id : JsValue) (name : string) :
  no_usable_id id -> Clinic.save id name = Clinic.insertClinic name.
Proof.
  intros [H | [s [-> H]]].
  - destruct id; try reflexivity. discriminate.
  - simpl. apply Nat.leb_le in H. now rewrite H.
Qed.

(** C8. [Clinic.save] inserts whenever the id is not a string or is a
    string of at most five characters: the table gains one row under the
    next UUID and keeps every row it had, a row filed under that short id
    included.  With a longer string it renames the rows with that id and
    resolves; when no row has the id, the database is as before. *)
Theorem clinic_save_inserts_or_renames (id : JsValue) (name : string)
        (w : World) :
  let w' := world_after (Clinic.save id name) w in
  (no_usable_id id ->
   has_key ClinicTable.id (next_uuid w) (clinics (db w)) = false ->
   result_of (Clinic.save id name) w = Ok tt /\
   clinics (db w') =
     clinics (db w) ++ [new_clinic (next_uuid w) name (sql_now w)] /\
   log w' = log w ++ [Insert clinics_table (next_uuid w)])
  /\
  (forall s, id = VString s -> (5 < String.length s)%nat ->
   result_of (Clinic.save id name) w = Ok tt /\
   clinics (db w') =
     update_where ClinicTable.id s (Clinic.rename name) (clinics (db w)) /\
   log w' = log w ++ [Update clinics_table s] /\
   (forall c, In c (clinics (db w')) -> ClinicTable.id c = s ->
              ClinicTable.cname c = Some name) /\
   (has_key ClinicTable.id s (clinics (db w)) = false -> db w' = db w)).
Proof.
  intro w'. subst w'. unfold result_of, world_after. split.
  - intros Hid Hfree. rewrite (save_without_usable_id name Hid).
    rewrite insertClinic_run. cbv zeta. rewrite Hfree. simpl. auto.
  - intros s -> Hlen. simpl.
    apply Nat.leb_gt in Hlen. rewrite Hlen. rewrite updateClinic_run. simpl.
    split; [reflexivity|]. split; [reflexivity|]. split; [reflexivity|].
    split.
    + intros c Hin Hc. apply In_update_where in Hin.
      destruct Hin as [old [_ ->]].
      destruct (ClinicTable.id old =? s) eqn:E; [reflexivity|].
      apply String.eqb_neq in E. contradiction.
    + intro H. rewrite update_where_absent by assumption.
      destruct w as [[]]; reflexivity.
Qed.

Lemma clinic_save_inserts_or_renames_witness :
  let w := Sample.world Sample.db3 in
  (no_usable_id (VString "c-17") /\
   has_key ClinicTable.id (next_uuid w) (clinics (db w)) = false /\
   (5 < String.length Sample.clinic_id)%nat) /\
  clinics (db (world_after (Clinic.save (VString "c-17") "Karatu") w))
  = [Sample.short_clinic; Sample.clinic;
     new_clinic (Sample.uuids 0) "Karatu" (sql_now w)] /\
  map ClinicTable.cname
      (clinics (db (world_after
                      (Clinic.save (VString Sample.clinic_id) "Karatu") w)))
  = [Some "Mto wa Mbu"; Some "Karatu"].
Proof.
  cbv zeta.
  assert (H1 : no_usable_id (VString "c-17")).
  { right. exists "c-17". split; [reflexivity | simpl; lia]. }
  assert (H3 : (5 < String.length Sample.clinic_id)%nat) by (simpl; lia).
  split; [repeat split; assumption|]. split.
  - destruct (clinic_save_inserts_or_renames (VString "c-17") "Karatu"
                (Sample.world Sample.db3)) as [H _].
    destruct (H H1 eq_refl) as (_ & Hc & _). exact Hc.
  - destruct (clinic_save_inserts_or_renames (VString Sample.clinic_id)
                "Karatu" (Sample.world Sample.db3)) as [_ H].
    destruct (H Sample.clinic_id eq_refl H3) as (_ & Hc & _).
    rewrite Hc. reflexivity.
Defined.

(** ** Reading after a soft delete *)

Lemma filter_not_deleted_appointments (id : string) (t : Timestamp)
      (rows : list AppointmentTable.T) :
  filter (fun r => AppointmentTable.id r =? id)
         (filter (fun r => Bool.eqb (AppointmentTable.is_deleted r) false)
                 (update_where AppointmentTable.id id
                               (Appointment.API.mark_deleted t) rows))
  = [].
Proof.
  unfold update_where. induction rows as [|r rows IH]; simpl; [reflexivity|].
  destruct (AppointmentTable.id r =? id) eqn:E; simpl.
  - exact IH.
  - destruct (Bool.eqb (AppointmentTable.is_deleted r) false); simpl;
      [rewrite E|]; exact IH.
Qed.

Lemma filter_not_deleted_clinics (id : string) (t : Timestamp)
      (rows : list ClinicTable.T) :
  filter (fun r => ClinicTable.id r =? id)
         (filter (fun c => Bool.eqb (ClinicTable.is_deleted c) false)
                 (update_where ClinicTable.id id (Clinic.mark_deleted t) rows))
  = [].
Proof.
  unfold update_where. induction rows as [|r rows IH]; simpl; [reflexivity|].
  destruct (ClinicTable.id r =? id) eqn:E; simpl.
  - exact IH.
  - destruct (Bool.eqb (ClinicTable.is_deleted r) false); simpl;
      [rewrite E|]; exact IH.
Qed.

Lemma filter_comm {A} (p q : A -> bool) (l : list A) :
  filter p (filter q l) = filter q (filter p l).
Proof.
  induction l as [|x l IH]; simpl; [reflexivity|].
  destruct (p x) eqn:P; destruct (q x) eqn:Q; simpl;
    rewrite ?P, ?Q, IH; reflexivity.
Qed.

Lemma no_row_with_key {Row} (key : Row -> string) (k : string)
      (rows : list Row) :
  filter (fun r => key r =? k) rows = [] -> ~ In k (keys key rows).
Proof.
  intros H Hin. unfold keys in Hin. apply in_map_iff in Hin.
  destruct Hin as [r [Hk Hr]].
  assert (Hf : In r (filter (fun r => key r =? k) rows)).
  { apply filter_In. split; [assumption | now apply String.eqb_eq]. }
  rewrite H in Hf. contradiction.
Qed.

Lemma getById_value_rows (id : string) (w : World) :
  result_of (Appointment.API.getById_value id) w
  = Ok (executeTakeFirst
          (filter (fun r => Bool.eqb (AppointmentTable.is_deleted r) false)
                  (filter (fun r => AppointmentTable.id r =? id)
                          (appointments (db w))))).
Proof. reflexivity. Qed.




(** ** The visit made for a delta *)

(** C10. When the delta's [current_visit_id] is not a valid UUID,
    [upsertFromDelta] adds one visit, under the next unused UUID: its
    [provider_name] is the empty string and its [provider_id] is the delta's
    [user_id], whatever the delta's own [provider_id] is. *)
Theorem upsertFromDelta_visit_provider
        (isValidUUID : string -> bool) (safeJSONParse : Json -> Json -> Json)
        (toSafeDateString : Timestamp -> Timestamp)
        (d : Appointment.EncodedT) (w : World) :
  let upsert := Appointment.Sync.upsertFromDelta isValidUUID safeJSONParse
                  toSafeDateString d in
  let w0 := if truthy (Appointment.id d) then w else bump w in
  let w' := world_after upsert w in
  isValidUUID (Appointment.current_visit_id d) = false ->
  has_key Visit.id (next_uuid w0) (visits (db w)) = false ->
  result_of upsert w = Ok (mkInsertResult 1) /\
  exists visit,
    visits (db w') = visits (db w) ++ [visit] /\
    Visit.id visit = next_uuid w0 /\
    Visit.provider_name visit = "" /\
    Visit.provider_id visit = Appointment.user_id d /\
    (Appointment.provider_id d <> Some (Appointment.user_id d) ->
     Some (Visit.provider_id visit) <> Appointment.provider_id d) /\
    Visit.patient_id visit = Appointment.patient_id d /\
    Visit.clinic_id visit = Appointment.clinic_id d.
Proof.
  intros upsert w0 w' Hinvalid Hfree.
  assert (Hrun : upsert w =
                 Appointment.API.save isValidUUID safeJSONParse
                   toSafeDateString
                   (Some (if truthy (Appointment.id d)
                          then Appointment.id d else next_uuid w))
                   d "" w0).
  { unfold upsert, w0. destruct (truthy (Appointment.id d)) eqn:T.
    - now apply upsertFromDelta_given_id.
    - now apply upsertFromDelta_fresh_id. }
  assert (Hdb : db w0 = db w)
    by (unfold w0; destruct (truthy (Appointment.id d)); reflexivity).
  subst w'. unfold result_of, world_after. rewrite Hrun, save_run.
  cbv zeta. rewrite Hinvalid, andb_false_r, Hdb, Hfree. simpl.
  split; [reflexivity|].
  eexists. split; [reflexivity|]. simpl.
  repeat split; congruence.
Qed.

Lemma upsertFromDelta_visit_provider_witness :
  let upsert := Appointment.Sync.upsertFromDelta Sample.isValidUUID
                  Sample.safeJSONParse Sample.toSafeDateString Sample.delta in
  let w := Sample.world Sample.db1 in
  (Sample.isValidUUID (Appointment.current_visit_id Sample.delta) = false /\
   has_key Visit.id (next_uuid w) (visits (db w)) = false) /\
  exists visit,
    visits (db (world_after upsert w)) = [visit] /\
    Visit.provider_name visit = "" /\
    Visit.provider_id visit = Sample.nurse_id.
Proof.
  cbv zeta. split; [split; reflexivity|].
  destruct (@upsertFromDelta_visit_provider Sample.isValidUUID
              Sample.safeJSONParse Sample.toSafeDateString Sample.delta
              (Sample.world Sample.db1) eq_refl eq_refl)
    as [_ [visit (Hv & _ & Hn & Hp & _)]].
  exists visit. split; [exact Hv|]. split; [exact Hn | exact Hp].
Defined.

(** * Further properties *)

(** ** Updates seen through the readers *)

Section UpdateFacts.
Variable Row : Type.
Variable key : Row -> string.

(** Reading by key after an update of that key: the rows found are the
    updated versions of the rows that would have been found, when the
    update keeps the key and the filter cannot tell a row from its update. *)
Lemma filter_key_update_where (k : string) (set : Row -> Row)
      (q : Row -> bool) (t : list Row) :
  (forall r, key (set r) = key r) ->
  (forall r, q (set r) = q r) ->
  filter q (filter (fun r => key r =? k) (update_where key k set t))
  = map set (filter q (filter (fun r => key r =? k) t)).
Proof.
  intros Hkey Hq. unfold update_where.
  induction t as [|r t IH]; simpl; [reflexivity|].
  destruct (key r =? k) eqn:E; simpl.
  - rewrite Hkey, E. simpl. rewrite Hq.
    destruct (q r); simpl; now rewrite IH.
  - rewrite E. exact IH.
Qed.

Lemma filter_update_where (k : string) (set : Row -> Row)
      (q : Row -> bool) (t : list Row) :
  (forall r, q (set r) = q r) ->
  filter q (update_where key k set t)
  = update_where key k set (filter q t).
Proof.
  intro Hq. unfold update_where.
  induction t as [|r t IH]; simpl; [reflexivity|].
  destruct (key r =? k) eqn:E.
  - rewrite Hq. destruct (q r); simpl; rewrite ?E, IH; reflexivity.
  - destruct (q r); simpl; rewrite ?E, IH; reflexivity.
Qed.

Lemma has_key_keys (k : string) (t u : list Row) :
  keys key t = keys key u -> has_key key k t = has_key key k u.
Proof.
  intro H. destruct (has_key key k u) eqn:E.
  - apply has_key_In. rewrite H. now apply has_key_In.
  - apply has_key_not_In. rewrite H. now apply has_key_not_In.
Qed.

Lemma rows_with_key_at_most_one (k : string) (t : list Row) :
  NoDup (keys key t) ->
  length (rows_with_key key k t) = if has_key key k t then 1%nat else 0%nat.
Proof.
  intro ND. destruct (has_key key k t) eqn:E.
  - now apply rows_with_key_unique.
  - now rewrite rows_with_key_none.
Qed.
End UpdateFacts.

(** ** Changing the status of an appointment *)

Lemma toggleStatus_run (id : string) (s : Status) (w : World) :
  Appointment.API.toggleStatus id s w =
  (Ok tt,
   mkWorld (set_appointments (db w)
              (update_where AppointmentTable.id id
                 (Appointment.API.set_status s (sql_now w))
                 (appointments (db w))))
           (sql_now w) (js_now w) (uuid_source w) (uuid_next w)
           (log w ++ [Update appointments_table id])).
Proof. reflexivity. Qed.

Lemma set_status_frame (s : Status) (t : Timestamp) (r : AppointmentTable.T) :
  status_toggled s t r (Appointment.API.set_status s t r).
Proof. unfold status_toggled. repeat split. Qed.

(** X1. [toggleStatus id status] always resolves and sends one update.
    Row by row, a row with another id is untouched and a row with this id
    has only [status], [updated_at] and [last_modified] set; in particular
    [is_deleted] and [deleted_at] stay.  No other table changes, and when no
    row has the id the database is as before. *)
Theorem toggleStatus_frame (id : string) (s : Status) (w : World) :
  let w' := world_after (Appointment.API.toggleStatus id s) w in
  result_of (Appointment.API.toggleStatus id s) w = Ok tt /\
  log w' = log w ++ [Update appointments_table id] /\
  Forall2 (fun old new =>
             if AppointmentTable.id old =? id
             then status_toggled s (sql_now w) old new
             else new = old)
          (appointments (db w)) (appointments (db w')) /\
  visits (db w') = visits (db w) /\
  clinics (db w') = clinics (db w) /\
  users (db w') = users (db w) /\
  (has_key AppointmentTable.id id (appointments (db w)) = false ->
   db w' = db w).
Proof.
  intro w'. subst w'. unfold result_of, world_after.
  rewrite toggleStatus_run. simpl.
  repeat split.
  - eapply Forall2_weaken; [|apply update_where_Forall2].
    intros old new ->. simpl.
    destruct (AppointmentTable.id old =? id); [|reflexivity].
    apply set_status_frame.
  - intro H. rewrite update_where_absent by assumption.
    destruct w as [[]]; reflexivity.
Qed.

Lemma toggleStatus_frame_witness :
  let w := Sample.world Sample.db1 in
  has_key AppointmentTable.id Sample.clinic_id (appointments (db w)) = false /\
  db (world_after (Appointment.API.toggleStatus Sample.clinic_id cancelled) w)
  = db w.
Proof.
  cbv zeta. split; [reflexivity|].
  destruct (toggleStatus_frame Sample.clinic_id cancelled
              (Sample.world Sample.db1)) as (_ & _ & _ & _ & _ & _ & H).
  exact (H eq_refl).
Defined.

(** X2. [toggleStatus] has no [is_deleted] filter: on a soft-deleted
    appointment it still sets the status, and the row stays deleted, so the
    readers keep not returning it. *)
Theorem toggleStatus_after_softDelete (id : string) (s : Status)
        (sql js : Timestamp) (w : World) :
  let w1 := later sql js (world_after (Appointment.API.softDelete id) w) in
  let w2 := world_after (Appointment.API.toggleStatus id s) w1 in
  (forall r, In r (appointments (db w2)) -> AppointmentTable.id r = id ->
             AppointmentTable.status r = s /\
             AppointmentTable.last_modified r = sql /\
             AppointmentTable.is_deleted r = true /\
             AppointmentTable.deleted_at r = Some (sql_now w)) /\
  has_key AppointmentTable.id id (appointments (db w2))
  = has_key AppointmentTable.id id (appointments (db w)) /\
  result_of (Appointment.API.getById id) w2 = Ok None /\
  (exists rows, result_of Appointment.API.getAll w2 = Ok rows /\
                ~ In id (keys AppointmentTable.id rows)).
Proof.
  intros w1 w2. subst w2 w1. unfold world_after, result_of.
  rewrite appointment_softDelete_run. unfold later. simpl.
  set (deleted := update_where AppointmentTable.id id
                    (Appointment.API.mark_deleted (sql_now w))
                    (appointments (db w))).
  assert (Hlive :
            filter (fun r => Bool.eqb (AppointmentTable.is_deleted r) false)
              (filter (fun r => AppointmentTable.id r =? id)
                 (update_where AppointmentTable.id id
                    (Appointment.API.set_status s sql) deleted)) = []).
  { rewrite filter_key_update_where by reflexivity.
    rewrite filter_comm. unfold deleted.
    now rewrite filter_not_deleted_appointments. }
  split; [|split; [|split]].
  - intros r Hin Hid. apply In_update_where in Hin.
    destruct Hin as [r1 [Hin1 ->]].
    unfold deleted in Hin1. apply In_update_where in Hin1.
    destruct Hin1 as [r0 [_ ->]].
    destruct (AppointmentTable.id r0 =? id) eqn:E; simpl in *.
    + rewrite E in *. simpl. repeat split.
    + rewrite E in *. apply String.eqb_neq in E. contradiction.
  - apply has_key_keys.
    rewrite keys_update_where by (intros r Hr; exact Hr).
    unfold deleted. apply keys_update_where. intros r Hr; exact Hr.
  - now rewrite Hlive.
  - eexists. split; [reflexivity|].
    apply no_row_with_key. rewrite filter_comm. exact Hlive.
Qed.

(** X3. What [getAppointmentById] returns after [toggleAppointmentStatus]:
    if it found nothing before it finds nothing after, and if it found a row
    it now finds that row with the new status and the two modification
    times set to the database's current time, all else equal. *)
Theorem toggleAppointmentStatus_then_getAppointmentById
        (id : string) (s : Status) (w : World) :
  let get := ServerFunctions.getAppointmentById
               (ServerFunctions.mkIdData id) in
  let w' := world_after
              (ServerFunctions.toggleAppointmentStatus
                 (ServerFunctions.mkStatusData id s)) w in
  (result_of get w = Ok None -> result_of get w' = Ok None) /\
  (forall r, result_of get w = Ok (Some r) ->
     exists r', result_of get w' = Ok (Some r') /\
                status_toggled s (sql_now w) r r').
Proof.
  intros get w'. subst get w'.
  unfold ServerFunctions.getAppointmentById,
    ServerFunctions.toggleAppointmentStatus, world_after, result_of.
  simpl. rewrite filter_key_update_where by reflexivity.
  destruct (filter
              (fun r => Bool.eqb (AppointmentTable.is_deleted r) false)
              (filter (fun r => AppointmentTable.id r =? id)
                      (appointments (db w)))) as [|r0 rest]; simpl.
  - split; [reflexivity | discriminate].
  - split; [discriminate|].
    intros r Hr. injection Hr as <-.
    eexists. split; [reflexivity | apply set_status_frame].
Qed.

Lemma toggleAppointmentStatus_then_getAppointmentById_witness :
  let get := ServerFunctions.getAppointmentById
               (ServerFunctions.mkIdData Sample.appointment_id) in
  let w := Sample.world Sample.db1 in
  let w' := world_after
              (ServerFunctions.toggleAppointmentStatus
                 (ServerFunctions.mkStatusData Sample.appointment_id
                                               checked_in)) w in
  result_of get w = Ok (Some Sample.stored) /\
  exists r', result_of get w' = Ok (Some r') /\
             AppointmentTable.status r' = checked_in /\
             AppointmentTable.reason r' = "check-up".
Proof.
  cbv zeta. split; [reflexivity|].
  destruct (toggleAppointmentStatus_then_getAppointmentById
              Sample.appointment_id checked_in (Sample.world Sample.db1))
    as [_ H].
  destruct (H Sample.stored eq_refl) as [r' [Hget Hr]].
  exists r'. split; [exact Hget|].
  unfold status_toggled in Hr.
  destruct Hr as (Hs & _ & _ & _ & _ & _ & _ & _ & _ & _ & _ & _ & _ & _ &
                  Hreason & _).
  split; [exact Hs | rewrite Hreason; reflexivity].
Defined.

(** ** Soft deletion, again *)

(** X4. [Appointment.API.softDelete id] resolves with one result whose
    [numUpdatedRows] is the number of rows with that id, deleted ones
    included.  Under the primary key that is 1 when the row exists and 0
    when it does not, and then the database is as before. *)
Theorem appointment_softDelete_count (id : string) (w : World) :
  NoDup (keys AppointmentTable.id (appointments (db w))) ->
  let w' := world_after (Appointment.API.softDelete id) w in
  result_of (Appointment.API.softDelete id) w
  = Ok [mkUpdateResult
          (if has_key AppointmentTable.id id (appointments (db w))
           then 1 else 0)] /\
  (has_key AppointmentTable.id id (appointments (db w)) = false ->
   db w' = db w).
Proof.
  intros ND w'. subst w'. unfold result_of, world_after.
  rewrite appointment_softDelete_run. simpl.
  rewrite rows_with_key_at_most_one by assumption. split; [reflexivity|].
  intro H. rewrite update_where_absent by assumption.
  destruct w as [[]]; reflexivity.
Qed.

Lemma appointment_softDelete_count_witness :
  let w := Sample.world Sample.db1 in
  NoDup (keys AppointmentTable.id (appointments (db w))) /\
  result_of (Appointment.API.softDelete Sample.appointment_id) w
  = Ok [mkUpdateResult 1] /\
  result_of (Appointment.API.softDelete Sample.clinic_id) w
  = Ok [mkUpdateResult 0].
Proof.
  cbv zeta.
  assert (ND : NoDup (keys AppointmentTable.id
                           (appointments (db (Sample.world Sample.db1))))).
  { repeat constructor. intros []. }
  split; [exact ND|]. split.
  - destruct (appointment_softDelete_count Sample.appointment_id
                (Sample.world Sample.db1) ND) as [H _]. exact H.
  - destruct (appointment_softDelete_count Sample.clinic_id
                (Sample.world Sample.db1) ND) as [H _]. exact H.
Defined.

(** X5. Soft deletion has no [is_deleted] guard either: deleting an
    appointment that is deleted already updates it again.  The second call
    reports the same number of rows and overwrites [deleted_at],
    [updated_at] and [last_modified] with the later time. *)
Theorem appointment_softDelete_again (id : string) (sql js : Timestamp)
        (w : World) :
  let w1 := later sql js (world_after (Appointment.API.softDelete id) w) in
  let w2 := world_after (Appointment.API.softDelete id) w1 in
  result_of (Appointment.API.softDelete id) w1
  = result_of (Appointment.API.softDelete id) w /\
  length (appointments (db w2)) = length (appointments (db w)) /\
  (forall r, In r (appointments (db w2)) -> AppointmentTable.id r = id ->
             AppointmentTable.is_deleted r = true /\
             AppointmentTable.deleted_at r = Some sql /\
             AppointmentTable.updated_at r = sql /\
             AppointmentTable.last_modified r = sql) /\
  (forall k, k <> id ->
             rows_with_key AppointmentTable.id k (appointments (db w2))
             = rows_with_key AppointmentTable.id k (appointments (db w))).
Proof.
  intros w1 w2. subst w2 w1. unfold result_of, world_after.
  repeat rewrite appointment_softDelete_run. unfold later. simpl.
  split; [|split; [|split]].
  - do 3 f_equal. unfold rows_with_key.
    pose proof (filter_key_update_where AppointmentTable.id id
                  (Appointment.API.mark_deleted (sql_now w))
                  (fun _ => true) (appointments (db w))) as H.
    assert (Htrue : forall A (l : list A), filter (fun _ => true) l = l).
    { intros A l. induction l; simpl; congruence. }
    rewrite !Htrue in H. rewrite H by reflexivity. apply length_map.
  - now rewrite !length_update_where.
  - intros r Hin Hid. apply In_update_where in Hin.
    destruct Hin as [r1 [_ ->]].
    destruct (AppointmentTable.id r1 =? id) eqn:E.
    + repeat split.
    + apply String.eqb_neq in E. contradiction.
  - intros k Hk. unfold rows_with_key, update_where.
    induction (appointments (db w)) as [|r t IH]; simpl; [reflexivity|].
    destruct (AppointmentTable.id r =? id) eqn:E; simpl.
    + rewrite E. simpl.
      assert (Ek : (AppointmentTable.id r =? k) = false).
      { apply String.eqb_eq in E. apply String.eqb_neq. congruence. }
      rewrite Ek. exact IH.
    + rewrite E. destruct (AppointmentTable.id r =? k); [f_equal|]; exact IH.
Qed.

(** ** Reading back what was saved *)

Section UpsertFacts.
Variable Row : Type.
Variable key : Row -> string.

Lemma rows_with_key_upsert (r : Row) (f : Row -> Row -> Row) (t : list Row) :
  (forall old, key (f old r) = key r) ->
  rows_with_key key (key r) (upsert_row key r f t)
  = if has_key key (key r) t
    then map (fun old => f old r) (rows_with_key key (key r) t)
    else [r].
Proof.
  intro Hf. unfold upsert_row.
  destruct (has_key key (key r) t) eqn:E.
  - clear E. unfold rows_with_key, update_where.
    induction t as [|x t IH]; simpl; [reflexivity|].
    destruct (key x =? key r) eqn:K; simpl.
    + rewrite Hf, String.eqb_refl. simpl. now rewrite IH.
    + rewrite K. exact IH.
  - rewrite rows_with_key_app, (rows_with_key_none _ _ _ E). simpl.
    now rewrite String.eqb_refl.
Qed.

Lemma rows_with_key_the_row (k : string) (t : list Row) (r : Row) :
  NoDup (keys key t) -> In r t -> key r = k ->
  rows_with_key key k t = [r].
Proof.
  unfold rows_with_key.
  induction t as [|x t IH]; simpl; intros ND Hin Hk; [contradiction|].
  inversion ND as [|? ? Hnotin ND']; subst.
  destruct Hin as [-> | Hin].
  - rewrite String.eqb_refl. f_equal.
    apply has_key_not_In in Hnotin.
    now apply rows_with_key_none in Hnotin.
  - assert (E : (key x =? key r) = false).
    { apply String.eqb_neq. intro Heq. apply Hnotin. rewrite Heq.
      unfold keys. now apply in_map. }
    rewrite E. now apply IH.
Qed.

Lemma rows_with_key_some (k : string) (t : list Row) :
  has_key key k t = true -> rows_with_key key k t <> [].
Proof.
  unfold has_key, rows_with_key.
  induction t as [|x t IH]; simpl; intro H; [discriminate|].
  destruct (key x =? k); [discriminate | now apply IH].
Qed.
End UpsertFacts.

Section ReadBack.
Variable isValidUUID : string -> bool.
Variable safeJSONParse : Json -> Json -> Json.
Variable toSafeDateString : Timestamp -> Timestamp.

Let save := Appointment.API.save isValidUUID safeJSONParse toSafeDateString.
Let values := Appointment.API.values safeJSONParse toSafeDateString.
Let doUpdateSet := Appointment.API.doUpdateSet toSafeDateString.

Lemma doUpdateSet_keeps (t : Timestamp) (a : Appointment.EncodedT)
      (rowId visitId : string) (old : AppointmentTable.T) :
  doUpdateSet t a old (values rowId visitId t a)
  = keep_server_created_at old (values rowId visitId t a).
Proof. reflexivity. Qed.

(** The rows that [getById] chooses from after a successful [save]. *)
Lemma saved_rows (id : option string) (a : Appointment.EncodedT)
      (name : string) (w : World) (res : InsertResult) :
  result_of (save id a name) w = Ok res ->
  let rowId := saved_id isValidUUID id a w in
  let proposed := values rowId (saved_visit_id isValidUUID a w) (sql_now w) a in
  rows_with_key AppointmentTable.id rowId
    (appointments (db (world_after (save id a name) w)))
  = if has_key AppointmentTable.id rowId (appointments (db w))
    then map (fun old => keep_server_created_at old proposed)
             (rows_with_key AppointmentTable.id rowId (appointments (db w)))
    else [proposed].
Proof.
  intros Hok rowId proposed.
  destruct (save_ok _ _ _ _ _ _ _ Hok) as [_ Hafter].
  fold save in Hafter. rewrite Hafter.
  change rowId with (AppointmentTable.id proposed).
  fold values doUpdateSet. fold rowId. fold proposed.
  rewrite (rows_with_key_upsert AppointmentTable.id proposed
             (doUpdateSet (sql_now w) a)) by reflexivity.
  destruct (has_key AppointmentTable.id (AppointmentTable.id proposed)
                    (appointments (db w))); reflexivity.
Qed.

Lemma getById_rows (id : string) (w : World) :
  result_of (Appointment.API.getById id) w
  = Ok (hd_error
          (filter (fun r => Bool.eqb (AppointmentTable.is_deleted r) false)
                  (rows_with_key AppointmentTable.id id
                                 (appointments (db w))))).
Proof. reflexivity. Qed.

End ReadBack.

(** X6. [save] followed by [getById] on the id it wrote under, in a table
    with unique ids.  If the id was new the row read back is the proposed
    row: the appointment's columns, the visit id [save] settled on, not
    deleted, stamped with the database's current time.  If a row had the id,
    deleted or not, the row read back is again the proposed row, except that
    [server_created_at] is the stored row's. *)
Theorem save_then_getById
        (isValidUUID : string -> bool) (safeJSONParse : Json -> Json -> Json)
        (toSafeDateString : Timestamp -> Timestamp)
        (id : option string) (a : Appointment.EncodedT) (name : string)
        (w : World) (res : InsertResult) :
  let save := Appointment.API.save isValidUUID safeJSONParse toSafeDateString in
  let rowId := saved_id isValidUUID id a w in
  let proposed :=
    Appointment.API.values safeJSONParse toSafeDateString rowId
      (saved_visit_id isValidUUID a w) (sql_now w) a in
  let w' := world_after (save id a name) w in
  NoDup (keys AppointmentTable.id (appointments (db w))) ->
  result_of (save id a name) w = Ok res ->
  (has_key AppointmentTable.id rowId (appointments (db w)) = false ->
   result_of (Appointment.API.getById rowId) w' = Ok (Some proposed)) /\
  (forall old, In old (appointments (db w)) ->
               AppointmentTable.id old = rowId ->
   result_of (Appointment.API.getById rowId) w'
   = Ok (Some (keep_server_created_at old proposed))).
Proof.
  intros save rowId proposed w' ND Hok. subst w'.
  rewrite getById_rows.
  pose proof (saved_rows _ _ _ _ _ _ _ Hok) as Hrows. cbv zeta in Hrows.
  subst save rowId proposed. rewrite Hrows. clear Hrows.
  split.
  - intro H. rewrite H. reflexivity.
  - intros old Hin Hid.
    assert (Hk : has_key AppointmentTable.id (saved_id isValidUUID id a w)
                         (appointments (db w)) = true).
    { apply has_key_In. rewrite <- Hid. unfold keys. now apply in_map. }
    rewrite Hk, (@rows_with_key_the_row _ AppointmentTable.id _ _ _ ND Hin Hid).
    reflexivity.
Qed.

Lemma save_then_getById_witness :
  let save := Appointment.API.save Sample.isValidUUID Sample.safeJSONParse
                Sample.toSafeDateString None Sample.delta "Asha" in
  let w := Sample.world Sample.db1 in
  (NoDup (keys AppointmentTable.id (appointments (db w))) /\
   result_of save w = Ok (mkInsertResult 1) /\
   In Sample.stored (appointments (db w))) /\
  exists r,
    result_of (Appointment.API.getById Sample.appointment_id)
              (world_after save w) = Ok (Some r) /\
    AppointmentTable.reason r = "follow-up" /\
    AppointmentTable.current_visit_id r = Sample.uuids 0 /\
    AppointmentTable.server_created_at r
    = AppointmentTable.server_created_at Sample.stored.
Proof.
  cbv zeta.
  assert (ND : NoDup (keys AppointmentTable.id
                           (appointments (db (Sample.world Sample.db1))))).
  { repeat constructor. intros []. }
  assert (Hin : In Sample.stored
                   (appointments (db (Sample.world Sample.db1))))
    by now left.
  split; [repeat split; assumption|].
  destruct (@save_then_getById Sample.isValidUUID Sample.safeJSONParse
              Sample.toSafeDateString None Sample.delta "Asha"
              (Sample.world Sample.db1) (mkInsertResult 1) ND eq_refl)
    as [_ H].
  eexists. split; [exact (H Sample.stored Hin eq_refl)|].
  repeat split.
Defined.

(** ** Deltas and visits *)

Section DeltaMore.
Variable isValidUUID : string -> bool.
Variable safeJSONParse : Json -> Json -> Json.
Variable toSafeDateString : Timestamp -> Timestamp.

Let save := Appointment.API.save isValidUUID safeJSONParse toSafeDateString.
Let values := Appointment.API.values safeJSONParse toSafeDateString.

Lemma save_new_visit (id : option string) (a : Appointment.EncodedT)
      (name : string) (w : World) :
  isValidUUID (Appointment.current_visit_id a) = false ->
  has_key Visit.id (next_uuid w) (visits (db w)) = false ->
  result_of (save id a name) w = Ok (mkInsertResult 1) /\
  saved_visit_id isValidUUID a w = next_uuid w /\
  visits (db (world_after (save id a name) w))
  = visits (db w) ++ [new_visit (next_uuid w) a name (sql_now w)].
Proof.
  intros V K. unfold result_of, world_after, save, saved_visit_id.
  rewrite save_run. cbv zeta. rewrite V, andb_false_r. simpl.
  rewrite K. simpl. auto.
Qed.

Lemma saved_row_visit (id : option string) (a : Appointment.EncodedT)
      (name : string) (w : World) (res : InsertResult)
      (r : AppointmentTable.T) :
  result_of (save id a name) w = Ok res ->
  In r (appointments (db (world_after (save id a name) w))) ->
  AppointmentTable.id r = saved_id isValidUUID id a w ->
  AppointmentTable.current_visit_id r = saved_visit_id isValidUUID a w /\
  AppointmentTable.is_deleted r = false /\
  AppointmentTable.deleted_at r = None /\
  AppointmentTable.last_modified r = sql_now w.
Proof.
  intros Hok Hin Hid.
  destruct (save_ok _ _ _ _ _ _ _ Hok) as [_ Hafter].
  fold save in Hafter. rewrite Hafter in Hin.
  destruct (In_upsert_key AppointmentTable.id _ _ _ _ Hin Hid)
    as [-> | [old [_ [_ ->]]]]; [reflexivity | | ]; repeat split.
Qed.

End DeltaMore.

(** X7. A delete delta followed by an upsert delta for the same stored
    appointment: after the delete [getById] finds nothing; the upsert
    succeeds and [getById] finds the appointment again, not deleted, with
    no deletion time, stamped with the time of the upsert. *)
Theorem upsertFromDelta_revives
        (isValidUUID : string -> bool) (safeJSONParse : Json -> Json -> Json)
        (toSafeDateString : Timestamp -> Timestamp)
        (d : Appointment.EncodedT) (sql js : Timestamp) (w : World) :
  let upsert := Appointment.Sync.upsertFromDelta isValidUUID safeJSONParse
                  toSafeDateString d in
  let w1 := later sql js
              (world_after (Appointment.Sync.deleteFromDelta
                              (Appointment.id d)) w) in
  let w2 := world_after upsert w1 in
  truthy (Appointment.id d) = true ->
  has_key AppointmentTable.id (Appointment.id d) (appointments (db w)) = true ->
  visit_id_free isValidUUID d w1 ->
  result_of (Appointment.API.getById (Appointment.id d)) w1 = Ok None /\
  result_of upsert w1 = Ok (mkInsertResult 1) /\
  exists r,
    result_of (Appointment.API.getById (Appointment.id d)) w2 = Ok (Some r) /\
    AppointmentTable.is_deleted r = false /\
    AppointmentTable.deleted_at r = None /\
    AppointmentTable.last_modified r = sql.
Proof.
  intros upsert w1 w2 Hid Hstored Hfree.
  assert (Hok : result_of
                  (Appointment.API.save isValidUUID safeJSONParse
                     toSafeDateString (Some (Appointment.id d)) d "") w1
                = Ok (mkInsertResult 1))
    by (apply save_succeeds; exact Hfree).
  assert (Hk1 : has_key AppointmentTable.id (Appointment.id d)
                        (appointments (db w1)) = true).
  { rewrite <- Hstored. apply has_key_keys. unfold w1, later, world_after.
    simpl. apply keys_update_where. intros r Hr; exact Hr. }
  split; [|split].
  - unfold w1, later, world_after, result_of,
      Appointment.Sync.deleteFromDelta. simpl.
    rewrite filter_comm, filter_not_deleted_appointments. reflexivity.
  - unfold upsert, result_of.
    rewrite upsertFromDelta_given_id by assumption. exact Hok.
  - unfold w2, upsert, world_after.
    rewrite upsertFromDelta_given_id by assumption.
    fold (world_after
            (Appointment.API.save isValidUUID safeJSONParse toSafeDateString
               (Some (Appointment.id d)) d "") w1).
    rewrite getById_rows.
    pose proof (saved_rows _ _ _ _ _ _ _ Hok) as Hrows. cbv zeta in Hrows.
    rewrite saved_id_given in Hrows by assumption.
    rewrite Hrows, Hk1.
    pose proof (rows_with_key_some AppointmentTable.id _ _ Hk1) as Hne.
    destruct (rows_with_key AppointmentTable.id (Appointment.id d)
                            (appointments (db w1))) as [|old rest];
      [contradiction|].
    simpl. eexists. split; [reflexivity|]. repeat split.
Qed.

Lemma upsertFromDelta_revives_witness :
  let upsert := Appointment.Sync.upsertFromDelta Sample.isValidUUID
                  Sample.safeJSONParse Sample.toSafeDateString Sample.delta in
  let w := Sample.world Sample.db1 in
  let w1 := later 1700000900%Z 1700000901%Z
              (world_after (Appointment.Sync.deleteFromDelta
                              Sample.appointment_id) w) in
  (truthy (Appointment.id Sample.delta) = true /\
   has_key AppointmentTable.id (Appointment.id Sample.delta)
           (appointments (db w)) = true /\
   visit_id_free Sample.isValidUUID Sample.delta w1) /\
  map AppointmentTable.is_deleted (appointments (db w1)) = [true] /\
  exists r,
    result_of (Appointment.API.getById Sample.appointment_id)
              (world_after upsert w1) = Ok (Some r) /\
    AppointmentTable.is_deleted r = false.
Proof.
  cbv zeta.
  assert (F : visit_id_free Sample.isValidUUID Sample.delta
                (later 1700000900%Z 1700000901%Z
                   (world_after (Appointment.Sync.deleteFromDelta
                                   Sample.appointment_id)
                                (Sample.world Sample.db1))))
    by (intros _; reflexivity).
  split; [repeat split; exact F|]. split; [reflexivity|].
  destruct (@upsertFromDelta_revives Sample.isValidUUID Sample.safeJSONParse
              Sample.toSafeDateString Sample.delta 1700000900%Z 1700000901%Z
              (Sample.world Sample.db1) eq_refl eq_refl F)
    as (_ & _ & r & Hget & Hlive & _).
  exists r. split; [exact Hget | exact Hlive].
Defined.

(** X8. Saving the same appointment twice while its [current_visit_id] is
    not a valid UUID makes two visits.  Both saves succeed when the UUID
    each draws is unused; the second visit has another id than the first,
    the first visit stays in the table, and the appointment ends up
    pointing at the second. *)
Theorem save_twice_two_visits
        (isValidUUID : string -> bool) (safeJSONParse : Json -> Json -> Json)
        (toSafeDateString : Timestamp -> Timestamp)
        (id : option string) (a : Appointment.EncodedT) (name : string)
        (sql js : Timestamp) (w : World) :
  let save := Appointment.API.save isValidUUID safeJSONParse toSafeDateString in
  let w1 := later sql js (world_after (save id a name) w) in
  let w2 := world_after (save id a name) w1 in
  isValidUUID (Appointment.current_visit_id a) = false ->
  has_key Visit.id (next_uuid w) (visits (db w)) = false ->
  has_key Visit.id (next_uuid w1) (visits (db w1)) = false ->
  result_of (save id a name) w = Ok (mkInsertResult 1) /\
  result_of (save id a name) w1 = Ok (mkInsertResult 1) /\
  visits (db w2) =
    visits (db w) ++ [new_visit (next_uuid w) a name (sql_now w);
                      new_visit (next_uuid w1) a name sql] /\
  next_uuid w1 <> next_uuid w /\
  (forall r, In r (appointments (db w2)) ->
             AppointmentTable.id r = saved_id isValidUUID id a w1 ->
             AppointmentTable.current_visit_id r = next_uuid w1).
Proof.
  intros save w1 w2 V K K1.
  destruct (save_new_visit isValidUUID safeJSONParse toSafeDateString
              id a name w V K) as (R & _ & Hv).
  destruct (save_new_visit isValidUUID safeJSONParse toSafeDateString
              id a name w1 V K1) as (R1 & Hvid1 & Hv1).
  fold save in R, Hv, R1, Hv1.
  assert (Hvisits1 : visits (db w1)
                     = visits (db w)
                       ++ [new_visit (next_uuid w) a name (sql_now w)])
    by exact Hv.
  split; [exact R|]. split; [exact R1|]. split; [|split].
  - unfold w2. rewrite Hv1, Hvisits1, <- app_assoc. reflexivity.
  - intro Heq. rewrite Hvisits1, Heq in K1.
    unfold has_key in K1. rewrite existsb_app in K1. simpl in K1.
    rewrite String.eqb_refl in K1. simpl in K1.
    rewrite orb_true_r in K1. discriminate.
  - intros r Hin Hr.
    destruct (saved_row_visit isValidUUID safeJSONParse toSafeDateString
                id a name w1 r R1 Hin Hr) as [Hcv _].
    now rewrite Hcv.
Qed.

Lemma save_twice_two_visits_witness :
  let save := Appointment.API.save Sample.isValidUUID Sample.safeJSONParse
                Sample.toSafeDateString None Sample.delta "Asha" in
  let w := Sample.world Sample.db1 in
  let w1 := later 1700000900%Z 1700000901%Z (world_after save w) in
  (Sample.isValidUUID (Appointment.current_visit_id Sample.delta) = false /\
   has_key Visit.id (next_uuid w) (visits (db w)) = false /\
   has_key Visit.id (next_uuid w1) (visits (db w1)) = false) /\
  map Visit.id (visits (db (world_after save w1)))
  = [Sample.uuids 0; Sample.uuids 1].
Proof.
  cbv zeta. split; [repeat split|].
  destruct (@save_twice_two_visits Sample.isValidUUID Sample.safeJSONParse
              Sample.toSafeDateString None Sample.delta "Asha"
              1700000900%Z 1700000901%Z (Sample.world Sample.db1)
              eq_refl eq_refl eq_refl) as (_ & _ & Hv & _).
  rewrite Hv. reflexivity.
Defined.

(** X9. A delta with an empty id is always an insert: [upsertFromDelta]
    files it under the next UUID, so when that UUID is not an id of the
    table and the visit can be made, the table keeps every row and gains
    the delta's row at the end. *)
Theorem upsertFromDelta_without_id_inserts
        (isValidUUID : string -> bool) (safeJSONParse : Json -> Json -> Json)
        (toSafeDateString : Timestamp -> Timestamp)
        (d : Appointment.EncodedT) (w : World) :
  let upsert := Appointment.Sync.upsertFromDelta isValidUUID safeJSONParse
                  toSafeDateString d in
  let w' := world_after upsert w in
  Appointment.id d = "" ->
  next_uuid w <> "" ->
  has_key AppointmentTable.id (next_uuid w) (appointments (db w)) = false ->
  visit_id_free isValidUUID d (bump w) ->
  result_of upsert w = Ok (mkInsertResult 1) /\
  appointments (db w') =
    appointments (db w) ++
    [Appointment.API.values safeJSONParse toSafeDateString (next_uuid w)
       (saved_visit_id isValidUUID d (bump w)) (sql_now w) d].
Proof.
  intros upsert w' Hempty Hne Hnew Hfree.
  assert (Hfalsy : truthy (Appointment.id d) = false)
    by (rewrite Hempty; reflexivity).
  assert (Htruthy : truthy (next_uuid w) = true).
  { unfold truthy. apply negb_true_iff. now apply String.eqb_neq. }
  assert (Hok := save_succeeds isValidUUID safeJSONParse toSafeDateString
                   (Some (next_uuid w)) d "" (bump w) Hfree).
  subst w'. unfold upsert, result_of, world_after.
  rewrite upsertFromDelta_fresh_id by exact Hfalsy.
  split; [exact Hok|].
  destruct (save_ok _ _ _ _ _ _ _ Hok) as [_ Hafter].
  unfold world_after in Hafter. rewrite Hafter.
  assert (Hid : saved_id isValidUUID (Some (next_uuid w)) d (bump w)
                = next_uuid w).
  { unfold saved_id, target_id. now rewrite Htruthy. }
  rewrite Hid. unfold upsert_row. simpl.
  change (appointments (db (bump w))) with (appointments (db w)).
  rewrite Hnew. reflexivity.
Qed.

Lemma upsertFromDelta_without_id_inserts_witness :
  let d := Appointment.mkEncoded "" None Sample.clinic_id Sample.patient_id
             Sample.nurse_id "" None 1700000000%Z 20%Z "vaccination" ""
             pending emptyObject false 1690000000%Z 1690000000%Z
             1690000000%Z 1690000000%Z None in
  let w := Sample.world Sample.db1 in
  let upsert := Appointment.Sync.upsertFromDelta Sample.isValidUUID
                  Sample.safeJSONParse Sample.toSafeDateString d in
  (Appointment.id d = "" /\ next_uuid w <> "" /\
   has_key AppointmentTable.id (next_uuid w) (appointments (db w)) = false /\
   visit_id_free Sample.isValidUUID d (bump w)) /\
  keys AppointmentTable.id (appointments (db (world_after upsert w)))
  = [Sample.appointment_id; Sample.uuids 0] /\
  map AppointmentTable.current_visit_id
      (appointments (db (world_after upsert w)))
  = [AppointmentTable.current_visit_id Sample.stored; Sample.uuids 1].
Proof.
  cbv zeta.
  set (d := Appointment.mkEncoded "" None Sample.clinic_id Sample.patient_id
              Sample.nurse_id "" None 1700000000%Z 20%Z "vaccination" ""
              pending emptyObject false 1690000000%Z 1690000000%Z
              1690000000%Z 1690000000%Z None).
  assert (Hne : next_uuid (Sample.world Sample.db1) <> "") by discriminate.
  assert (F : visit_id_free Sample.isValidUUID d
                (bump (Sample.world Sample.db1))) by (intros _; reflexivity).
  split; [repeat split; assumption|].
  destruct (@upsertFromDelta_without_id_inserts Sample.isValidUUID
              Sample.safeJSONParse Sample.toSafeDateString d
              (Sample.world Sample.db1) eq_refl Hne eq_refl F) as [_ Ha].
  rewrite Ha. split; reflexivity.
Defined.

(** ** The primary keys are kept *)

Lemma NoDup_keys_snoc {Row} (key : Row -> string) (r : Row) (t : list Row) :
  NoDup (keys key t) -> has_key key (key r) t = false ->
  NoDup (keys key (t ++ [r])).
Proof.
  intros ND H. unfold keys. rewrite map_app. simpl.
  apply has_key_not_In in H.
  apply NoDup_app; [assumption | repeat constructor; auto | ].
  intros x Hx [<- | []]. contradiction.
Qed.

Lemma NoDup_keys_update_where {Row} (key : Row -> string) (k : string)
      (set : Row -> Row) (t : list Row) :
  (forall r, key r = k -> key (set r) = k) ->
  NoDup (keys key t) -> NoDup (keys key (update_where key k set t)).
Proof. intros Hset ND. now rewrite keys_update_where. Qed.

Section SaveKeeps.
Variable isValidUUID : string -> bool.
Variable safeJSONParse : Json -> Json -> Json.
Variable toSafeDateString : Timestamp -> Timestamp.

Lemma save_keeps_unique_ids (id : option string) (a : Appointment.EncodedT)
      (name : string) (w : World) :
  unique_ids (db w) ->
  unique_ids (db (world_after
                    (Appointment.API.save isValidUUID safeJSONParse
                       toSafeDateString id a name) w)).
Proof.
  intros (Ha & Hv & Hc & Hu). unfold world_after. rewrite save_run.
  cbv zeta.
  destruct (isValidUUID (Appointment.current_visit_id a)) eqn:V; simpl.
  - repeat split; try assumption.
    apply NoDup_upsert; [reflexivity | assumption].
  - rewrite andb_false_r.
    destruct (has_key Visit.id (next_uuid w) (visits (db w))) eqn:K; simpl.
    + repeat split; assumption.
    + repeat split; try assumption.
      * apply NoDup_upsert; [reflexivity | assumption].
      * now apply NoDup_keys_snoc.
Qed.
End SaveKeeps.

(** X10. Every write of the appointment model keeps the primary keys: if
    no table has two rows with one id before [save], [softDelete],
    [toggleStatus], [upsertFromDelta] or [deleteFromDelta], none has
    afterwards, whatever the arguments and whether or not the call
    throws. *)
Theorem appointment_writes_keep_unique_ids
        (isValidUUID : string -> bool) (safeJSONParse : Json -> Json -> Json)
        (toSafeDateString : Timestamp -> Timestamp) (w : World) :
  unique_ids (db w) ->
  (forall id a name,
      unique_ids (db (world_after
                        (Appointment.API.save isValidUUID safeJSONParse
                           toSafeDateString id a name) w))) /\
  (forall id,
      unique_ids (db (world_after (Appointment.API.softDelete id) w))) /\
  (forall id s,
      unique_ids (db (world_after (Appointment.API.toggleStatus id s) w))) /\
  (forall d,
      unique_ids (db (world_after
                        (Appointment.Sync.upsertFromDelta isValidUUID
                           safeJSONParse toSafeDateString d) w))) /\
  (forall id,
      unique_ids (db (world_after (Appointment.Sync.deleteFromDelta id) w))).
Proof.
  intro H.
  assert (Hdel : forall id,
             unique_ids (db (world_after (Appointment.API.softDelete id) w))).
  { intro id. destruct H as (Ha & Hv & Hc & Hu).
    unfold world_after. rewrite appointment_softDelete_run. simpl.
    repeat split; try assumption.
    apply NoDup_keys_update_where; [intros r Hr; exact Hr | assumption]. }
  split; [|split; [|split; [|split]]].
  - intros id a name. now apply save_keeps_unique_ids.
  - exact Hdel.
  - intros id s. destruct H as (Ha & Hv & Hc & Hu).
    unfold world_after. rewrite toggleStatus_run. simpl.
    repeat split; try assumption.
    apply NoDup_keys_update_where; [intros r Hr; exact Hr | assumption].
  - intro d. unfold world_after.
    destruct (truthy (Appointment.id d)) eqn:T.
    + rewrite upsertFromDelta_given_id by assumption.
      now apply save_keeps_unique_ids.
    + rewrite upsertFromDelta_fresh_id by assumption.
      apply (save_keeps_unique_ids isValidUUID safeJSONParse
               toSafeDateString (Some (next_uuid w)) d "" (bump w)).
      exact H.
  - exact Hdel.
Qed.

Lemma appointment_writes_keep_unique_ids_witness :
  unique_ids Sample.db1 /\
  unique_ids
    (db (world_after
           (Appointment.Sync.upsertFromDelta Sample.isValidUUID
              Sample.safeJSONParse Sample.toSafeDateString Sample.delta)
           (Sample.world Sample.db1))).
Proof.
  assert (H : unique_ids (db (Sample.world Sample.db1))).
  { repeat split; repeat constructor; intros []. }
  split; [exact H|].
  destruct (appointment_writes_keep_unique_ids Sample.isValidUUID
              Sample.safeJSONParse Sample.toSafeDateString
              (Sample.world Sample.db1) H) as (_ & _ & _ & Hup & _).
  exact (Hup Sample.delta).
Defined.

(** X11. Both writes of the clinic model keep the primary keys as well:
    [Clinic.save] and [Clinic.softDelete] never leave two rows with one id
    in a table that had none, whatever the arguments and whether or not the
    call throws. *)
Theorem clinic_writes_keep_unique_ids (w : World) :
  unique_ids (db w) ->
  (forall id name, unique_ids (db (world_after (Clinic.save id name) w))) /\
  (forall id, unique_ids (db (world_after (Clinic.softDelete id) w))).
Proof.
  intros (Ha & Hv & Hc & Hu).
  assert (Hins : forall name,
             unique_ids (db (world_after (Clinic.insertClinic name) w))).
  { intro name. unfold world_after. rewrite insertClinic_run. cbv zeta.
    destruct (has_key ClinicTable.id (next_uuid w) (clinics (db w))) eqn:K;
      simpl; repeat split; try assumption.
    now apply NoDup_keys_snoc. }
  split.
  - intros id name. destruct id as [| | | |s]; simpl; try apply Hins.
    destruct (String.length s <=? 5)%nat; [apply Hins|].
    unfold world_after. rewrite updateClinic_run. simpl.
    repeat split; try assumption.
    apply NoDup_keys_update_where; [intros r Hr; exact Hr | assumption].
  - intro id. unfold world_after. rewrite clinic_softDelete_run. cbv zeta.
    destruct (0 <? length (filter (Clinic.registered_in id) (users (db w))))%nat;
      simpl; repeat split; try assumption.
    apply NoDup_keys_update_where; [intros r Hr; exact Hr | assumption].
Qed.

Lemma clinic_writes_keep_unique_ids_witness :
  unique_ids Sample.db3 /\
  unique_ids (db (world_after (Clinic.save (VString "c-17") "Karatu")
                              (Sample.world Sample.db3))).
Proof.
  assert (H : unique_ids (db (Sample.world Sample.db3))).
  { repeat split; repeat constructor.
    - intros [Heq | []]. discriminate.
    - intros []. }
  split; [exact H|].
  destruct (clinic_writes_keep_unique_ids (Sample.world Sample.db3) H)
    as [Hsave _].
  exact (Hsave (VString "c-17") "Karatu").
Defined.

(** ** Clinics, again *)

(** X12. [Clinic.softDelete] does not look at the clinic before updating
    it.  After a successful call a later call succeeds again and overwrites
    [deleted_at] with the later time of the server; and when no clinic has
    the id, both calls resolve and leave the database as it was. *)
Theorem clinic_softDelete_again (id : string) (sql js : Timestamp)
        (w : World) :
  let w1 := later sql js (world_after (Clinic.softDelete id) w) in
  let w2 := world_after (Clinic.softDelete id) w1 in
  result_of (Clinic.softDelete id) w = Ok tt ->
  result_of (Clinic.softDelete id) w1 = Ok tt /\
  (forall c, In c (clinics (db w2)) -> ClinicTable.id c = id ->
             ClinicTable.is_deleted c = true /\
             ClinicTable.deleted_at c = Some js) /\
  keys ClinicTable.id (clinics (db w2)) = keys ClinicTable.id (clinics (db w)) /\
  (has_key ClinicTable.id id (clinics (db w)) = false -> db w2 = db w).
Proof.
  intros w1 w2. subst w2 w1. unfold result_of, world_after.
  repeat rewrite clinic_softDelete_run. unfold later. cbv zeta. simpl.
  destruct (0 <? length (filter (Clinic.registered_in id) (users (db w))))%nat
    eqn:E; simpl; [discriminate|]. rewrite E. simpl.
  intros _. split; [reflexivity|]. split; [|split].
  - intros c Hin Hc. apply In_update_where in Hin.
    destruct Hin as [c1 [_ ->]].
    destruct (ClinicTable.id c1 =? id) eqn:K.
    + split; reflexivity.
    + apply String.eqb_neq in K. contradiction.
  - rewrite !keys_update_where by (intros r Hr; exact Hr). reflexivity.
  - intro H. rewrite (update_where_absent ClinicTable.id _ _ _ H).
    rewrite (update_where_absent ClinicTable.id _ _ _ H).
    destruct w as [[]]; reflexivity.
Qed.

Lemma clinic_softDelete_again_witness :
  let w := Sample.world Sample.db2 in
  let w1 := later 1700000900%Z 1700000901%Z
              (world_after (Clinic.softDelete Sample.clinic_id) w) in
  result_of (Clinic.softDelete Sample.clinic_id) w = Ok tt /\
  map ClinicTable.deleted_at (clinics (db w1)) = [Some 1700000601%Z] /\
  forall c,
    In c (clinics (db (world_after (Clinic.softDelete Sample.clinic_id) w1))) ->
    ClinicTable.id c = Sample.clinic_id ->
    ClinicTable.deleted_at c = Some 1700000901%Z.
Proof.
  cbv zeta. split; [reflexivity|]. split; [reflexivity|].
  destruct (clinic_softDelete_again Sample.clinic_id 1700000900%Z
              1700000901%Z (Sample.world Sample.db2) eq_refl)
    as (_ & H & _).
  intros c Hin Hc. now destruct (H c Hin Hc).
Defined.

Lemma updateClinic_of_long_id (s name : string) :
  (5 < String.length s)%nat ->
  Clinic.save (VString s) name = Clinic.updateClinic s name.
Proof. intro H. simpl. apply Nat.leb_gt in H. now rewrite H. Qed.

Lemma rename_frame (name : string) (c : ClinicTable.T) :
  clinic_renamed name c (Clinic.rename name c).
Proof. unfold clinic_renamed. repeat split. Qed.

(** X13. Renaming through [Clinic.save] (an id of more than five
    characters) changes the name and nothing else: row by row, a row with
    another id is untouched and a row with this id keeps every column but
    [name], [updated_at] and [last_modified] included.  As [is_deleted]
    stays, [getAll] returns clinics with the same ids after the call as
    before it, and as many: a deleted clinic is renamed but not brought
    back. *)
Theorem clinic_rename_frame (s name : string) (w : World) :
  let w' := world_after (Clinic.save (VString s) name) w in
  (5 < String.length s)%nat ->
  Forall2 (fun old new =>
             if ClinicTable.id old =? s
             then clinic_renamed name old new
             else new = old)
          (clinics (db w)) (clinics (db w')) /\
  appointments (db w') = appointments (db w) /\
  visits (db w') = visits (db w) /\
  users (db w') = users (db w) /\
  exists rows rows',
    result_of Clinic.getAll w = Ok rows /\
    result_of Clinic.getAll w' = Ok rows' /\
    (forall k, In k (keys ClinicTable.id rows')
               <-> In k (keys ClinicTable.id rows)) /\
    length rows' = length rows /\
    (forall c, In c rows' -> ClinicTable.id c = s ->
               ClinicTable.cname c = Some name).
Proof.
  intros w' Hlen. subst w'. unfold world_after, result_of.
  rewrite (@updateClinic_of_long_id s name Hlen), updateClinic_run. simpl.
  repeat split.
  - eapply Forall2_weaken; [|apply update_where_Forall2].
    intros old new ->. simpl.
    destruct (ClinicTable.id old =? s); [|reflexivity].
    apply rename_frame.
  - eexists. eexists. split; [reflexivity|]. split; [reflexivity|].
    rewrite (filter_update_where ClinicTable.id) by reflexivity.
    split; [|split].
    + intro k.
      rewrite keys_update_where by (intros r Hr; exact Hr). reflexivity.
    + apply length_update_where.
    + intros c Hin Hc. apply In_update_where in Hin.
      destruct Hin as [old [_ ->]].
      destruct (ClinicTable.id old =? s) eqn:E; [reflexivity|].
      apply String.eqb_neq in E. contradiction.
Qed.

Lemma clinic_rename_frame_witness :
  let w := Sample.world Sample.db3 in
  let w' := world_after (Clinic.save (VString Sample.clinic_id) "Karatu") w in
  (5 < String.length Sample.clinic_id)%nat /\
  Forall2 (fun old new =>
             if ClinicTable.id old =? Sample.clinic_id
             then clinic_renamed "Karatu" old new
             else new = old)
          (clinics (db w)) (clinics (db w')) /\
  exists rows',
    result_of Clinic.getAll w' = Ok rows' /\
    length rows' = 2%nat /\
    (In Sample.clinic_id (keys ClinicTable.id rows')) /\
    (forall c, In c rows' -> ClinicTable.id c = Sample.clinic_id ->
               ClinicTable.cname c = Some "Karatu").
Proof.
  cbv zeta.
  assert (H : (5 < String.length Sample.clinic_id)%nat) by (simpl; lia).
  split; [exact H|].
  destruct (clinic_rename_frame Sample.clinic_id "Karatu"
              (Sample.world Sample.db3) H)
    as (HF & _ & _ & _ & rows & rows' & Hb & Ha & Hkeys & Hlen & Hname).
  split; [exact HF|].
  injection Hb as <-.
  exists rows'. split; [exact Ha|]. split; [rewrite Hlen; reflexivity|].
  split; [|exact Hname].
  apply Hkeys. simpl. right. now left.
Defined.

(** X14. A clinic made by [Clinic.save] (an id that is no string or has at
    most five characters, and a UUID that is not taken) is returned by
    [getAll] right away: the call returns the clinics it returned before and
    the new one, one row more, and nothing else. *)
Theorem clinic_insert_then_getAll (id : JsValue) (name : string) (w : World) :
  let w' := world_after (Clinic.save id name) w in
  let created := new_clinic (next_uuid w) name (sql_now w) in
  no_usable_id id ->
  has_key ClinicTable.id (next_uuid w) (clinics (db w)) = false ->
  exists rows rows',
    result_of Clinic.getAll w = Ok rows /\
    result_of Clinic.getAll w' = Ok rows' /\
    (forall c, In c rows' <-> In c rows \/ c = created) /\
    length rows' = S (length rows).
Proof.
  intros w' created Hid Hfree. subst w'. unfold world_after, result_of.
  rewrite (save_without_usable_id name Hid), insertClinic_run. cbv zeta.
  rewrite Hfree. simpl.
  eexists. eexists. split; [reflexivity|]. split; [reflexivity|].
  rewrite filter_app. simpl. split.
  - intro c. rewrite in_app_iff. simpl. fold created.
    split.
    + intros [H | [<- | []]]; [now left | now right].
    + intros [H | ->]; [now left | right; now left].
  - rewrite length_app. simpl. lia.
Qed.

Lemma clinic_insert_then_getAll_witness :
  let w := Sample.world Sample.db3 in
  let w' := world_after (Clinic.save VUndefined "Karatu") w in
  (no_usable_id VUndefined /\
   has_key ClinicTable.id (next_uuid w) (clinics (db w)) = false) /\
  exists rows',
    result_of Clinic.getAll w' = Ok rows' /\
    length rows' = 3%nat /\
    In (new_clinic (Sample.uuids 0) "Karatu" (sql_now w)) rows' /\
    In Sample.short_clinic rows' /\
    In Sample.clinic rows'.
Proof.
  cbv zeta.
  assert (H : no_usable_id VUndefined) by (left; reflexivity).
  split; [split; [exact H | reflexivity]|].
  destruct (clinic_insert_then_getAll "Karatu" (Sample.world Sample.db3)
              H eq_refl) as (rows & rows' & Hb & Ha & Hin & Hlen).
  injection Hb as <-.
  exists rows'. split; [exact Ha|]. split; [rewrite Hlen; reflexivity|].
  split; [|split]; apply Hin.
  - now right.
  - left. now left.
  - left. right. now left.
Defined.

(** ** Appointments with their patient, clinic and provider *)

Lemma flat_map_of_map {A B C} (f : B -> list C) (g : A -> B) (l : list A) :
  flat_map f (map g l) = flat_map (fun x => f (g x)) l.
Proof. induction l as [|x l IH]; simpl; [reflexivity | now rewrite IH]. Qed.

Lemma map_of_flat_map {A B C} (h : B -> C) (f : A -> list B) (l : list A) :
  map h (flat_map f l) = flat_map (fun x => map h (f x)) l.
Proof.
  induction l as [|x l IH]; simpl; [reflexivity|].
  now rewrite map_app, IH.
Qed.

Lemma unique_row {Row} (key : Row -> string) (t : list Row) (r r' : Row) :
  NoDup (keys key t) -> In r t -> In r' t -> key r = key r' -> r = r'.
Proof.
  induction t as [|x t IH]; simpl; intros ND Hr Hr' Hk; [contradiction|].
  inversion ND as [|? ? Hnotin ND']; subst.
  destruct Hr as [-> | Hr]; destruct Hr' as [-> | Hr'].
  - reflexivity.
  - exfalso. apply Hnotin. rewrite Hk. unfold keys. now apply in_map.
  - exfalso. apply Hnotin. rewrite <- Hk. unfold keys. now apply in_map.
  - now apply IH.
Qed.

Section DetailsFacts.
Variable PatientRow : Type.
Variable patient_key : PatientRow -> string.
Variable patients : list PatientRow.

Let Details := Appointment.API.Details PatientRow.
Let getAllWithDetails :=
  Appointment.API.getAllWithDetails patient_key patients.

(** The rows of the join over the tables of [d]. *)
Lemma getAllWithDetails_rows (w : World) :
  exists rows, result_of getAllWithDetails w = Ok rows /\
  forall x : Details,
    In x rows <->
    (In (Appointment.API.appointment x) (appointments (db w)) /\
     AppointmentTable.is_deleted (Appointment.API.appointment x) = false) /\
    (In (Appointment.API.patient x) patients /\
     AppointmentTable.patient_id (Appointment.API.appointment x)
     = patient_key (Appointment.API.patient x)) /\
    (In (Appointment.API.clinic x) (clinics (db w)) /\
     AppointmentTable.clinic_id (Appointment.API.appointment x)
     = ClinicTable.id (Appointment.API.clinic x)) /\
    (In (Appointment.API.provider x) (users (db w)) /\
     AppointmentTable.provider_id (Appointment.API.appointment x)
     = Some (User.id (Appointment.API.provider x))).
Proof.
  unfold result_of, getAllWithDetails, Appointment.API.getAllWithDetails,
    bind, exec, getDb, ret. simpl.
  eexists. split; [reflexivity|].
  intros [a p c u]. simpl.
  assert (Hprov : Appointment.API.is_provider a u = true <->
                  AppointmentTable.provider_id a = Some (User.id u)).
  { unfold Appointment.API.is_provider.
    destruct (AppointmentTable.provider_id a) as [pid|].
    - rewrite String.eqb_eq. split; congruence.
    - split; discriminate. }
  split.
  - intro Hx. apply in_flat_map in Hx. destruct Hx as [a' [Ha Hin]].
    apply filter_In in Ha. destruct Ha as [Ha Hlive].
    apply in_flat_map in Hin. destruct Hin as [p' [Hp Hin]].
    apply filter_In in Hp. destruct Hp as [Hp Hpk].
    apply in_flat_map in Hin. destruct Hin as [c' [Hc Hin]].
    apply filter_In in Hc. destruct Hc as [Hc Hck].
    apply in_map_iff in Hin. destruct Hin as [u' [Heq Hu]].
    apply filter_In in Hu. destruct Hu as [Hu Huk].
    injection Heq as -> -> -> ->.
    apply Bool.eqb_prop in Hlive. apply String.eqb_eq in Hpk, Hck.
    apply Hprov in Huk. auto 10.
  - intros ((Ha & Hlive) & (Hp & Hpk) & (Hc & Hck) & (Hu & Huk)).
    apply in_flat_map. exists a. split.
    + apply filter_In. split; [assumption|]. now rewrite Hlive.
    + apply in_flat_map. exists p. split.
      * apply filter_In. split; [assumption | now apply String.eqb_eq].
      * apply in_flat_map. exists c. split.
        -- apply filter_In. split; [assumption | now apply String.eqb_eq].
        -- apply in_map. apply filter_In. split; [assumption|].
           now apply Hprov.
Qed.

End DetailsFacts.

(** X15. What [getAllWithDetails] lists: a record is listed exactly when
    its appointment is stored and not deleted and its patient, clinic and
    provider are stored rows with the ids the appointment refers to.  So
    every listed appointment is one that [getAll] returns, and an
    appointment without a provider is returned by [getAll] but never
    listed. *)
Theorem getAllWithDetails_lists
        (PatientRow : Type) (patient_key : PatientRow -> string)
        (patients : list PatientRow) (w : World) :
  exists rows all,
    result_of (Appointment.API.getAllWithDetails patient_key patients) w
    = Ok rows /\
    result_of Appointment.API.getAll w = Ok all /\
    (forall x,
        In x rows <->
        (In (Appointment.API.appointment x) (appointments (db w)) /\
         AppointmentTable.is_deleted (Appointment.API.appointment x) = false) /\
        (In (Appointment.API.patient x) patients /\
         AppointmentTable.patient_id (Appointment.API.appointment x)
         = patient_key (Appointment.API.patient x)) /\
        (In (Appointment.API.clinic x) (clinics (db w)) /\
         AppointmentTable.clinic_id (Appointment.API.appointment x)
         = ClinicTable.id (Appointment.API.clinic x)) /\
        (In (Appointment.API.provider x) (users (db w)) /\
         AppointmentTable.provider_id (Appointment.API.appointment x)
         = Some (User.id (Appointment.API.provider x)))) /\
    (forall x, In x rows -> In (Appointment.API.appointment x) all) /\
    (forall x, In x rows ->
               AppointmentTable.provider_id (Appointment.API.appointment x)
               <> None).
Proof.
  destruct (getAllWithDetails_rows patient_key patients w)
    as [rows [Hres Hrows]].
  exists rows. eexists. split; [exact Hres|]. split; [reflexivity|].
  split; [exact Hrows|]. split.
  - intros x Hx. apply Hrows in Hx. destruct Hx as ((Ha & Hlive) & _).
    apply filter_In. split; [assumption | now rewrite Hlive].
  - intros x Hx. apply Hrows in Hx.
    destruct Hx as (_ & _ & _ & (_ & Hu)). congruence.
Qed.

(** In the list model the list after is the list before, entry by entry;
    of this only the membership and the length are stated of the code. *)
Lemma getAllWithDetails_softDelete_rows
      (PatientRow : Type) (patient_key : PatientRow -> string)
      (patients : list PatientRow) (id : string) (w : World) :
  result_of (Clinic.softDelete id) w = Ok tt ->
  exists rows,
    result_of (Appointment.API.getAllWithDetails patient_key patients) w
    = Ok rows /\
    result_of (Appointment.API.getAllWithDetails patient_key patients)
              (world_after (Clinic.softDelete id) w)
    = Ok (map (with_clinic_deleted id (js_now w)) rows).
Proof.
  unfold result_of, world_after.
  rewrite clinic_softDelete_run. cbv zeta.
  destruct (0 <? length (filter (Clinic.registered_in id) (users (db w))))%nat;
    simpl; [discriminate|].
  intros _. eexists. split; [reflexivity|]. f_equal.
  rewrite map_of_flat_map. apply flat_map_ext. intro a.
  rewrite map_of_flat_map. apply flat_map_ext. intro p.
  rewrite (filter_update_where ClinicTable.id) by reflexivity.
  unfold update_where. rewrite flat_map_of_map, map_of_flat_map.
  apply flat_map_ext. intro c. rewrite map_map. reflexivity.
Qed.

(** X16. The join does not look at [is_deleted] of clinics.  After a
    successful [Clinic.softDelete id] the detailed list has the entries it
    had before and no others, as many as before: every entry is an earlier
    entry with the same appointment, patient and provider, and the only
    difference is that the clinic shown in the entries of that clinic is
    now the deleted row. *)
Theorem getAllWithDetails_after_clinic_softDelete
        (PatientRow : Type) (patient_key : PatientRow -> string)
        (patients : list PatientRow) (id : string) (w : World) :
  let w' := world_after (Clinic.softDelete id) w in
  result_of (Clinic.softDelete id) w = Ok tt ->
  exists rows rows',
    result_of (Appointment.API.getAllWithDetails patient_key patients) w
    = Ok rows /\
    result_of (Appointment.API.getAllWithDetails patient_key patients) w'
    = Ok rows' /\
    (forall x', In x' rows' <->
                exists x, In x rows /\
                          x' = with_clinic_deleted id (js_now w) x) /\
    length rows' = length rows.
Proof.
  intros w' Hok. subst w'.
  destruct (getAllWithDetails_softDelete_rows patient_key patients id w Hok)
    as [rows [Hb Ha]].
  exists rows. eexists. split; [exact Hb|]. split; [exact Ha|]. split.
  - intro x'. rewrite in_map_iff. split.
    + intros [x [Hx Hin]]. exists x. auto.
    + intros [x [Hin Hx]]. exists x. auto.
  - apply length_map.
Qed.

Lemma getAllWithDetails_after_clinic_softDelete_witness :
  let w := Sample.world Sample.db4 in
  let details := Appointment.API.getAllWithDetails (fun p : string => p)
                   [Sample.patient_id] in
  result_of (Clinic.softDelete Sample.clinic_id) w = Ok tt /\
  exists rows',
    result_of details (world_after (Clinic.softDelete Sample.clinic_id) w)
    = Ok rows' /\
    length rows' = 2%nat /\
    (forall x', In x' rows' ->
                ClinicTable.is_deleted (Appointment.API.clinic x') = true) /\
    (exists x', In x' rows' /\
                AppointmentTable.id (Appointment.API.appointment x')
                = Sample.appointment_id).
Proof.
  cbv zeta. split; [reflexivity|].
  destruct (@getAllWithDetails_after_clinic_softDelete string
              (fun p : string => p) [Sample.patient_id] Sample.clinic_id
              (Sample.world Sample.db4) eq_refl)
    as (rows & rows' & Hb & Ha & Hin & Hlen).
  injection Hb as <-.
  exists rows'. split; [exact Ha|]. split; [rewrite Hlen; reflexivity|].
  split.
  - intros x' Hx'. apply Hin in Hx'. destruct Hx' as [x [Hx ->]].
    destruct Hx as [<- | [<- | []]]; reflexivity.
  - eexists. split; [apply Hin; eexists; split; [left; reflexivity|];
                     reflexivity|].
    reflexivity.
Defined.

(** X17. Under the primary keys the join lists an appointment at most
    once: two listed records for appointments with one id are the same
    record. *)
Theorem getAllWithDetails_lists_once
        (PatientRow : Type) (patient_key : PatientRow -> string)
        (patients : list PatientRow) (w : World) :
  unique_ids (db w) ->
  NoDup (keys patient_key patients) ->
  exists rows,
    result_of (Appointment.API.getAllWithDetails patient_key patients) w
    = Ok rows /\
    forall x y,
      In x rows -> In y rows ->
      AppointmentTable.id (Appointment.API.appointment x)
      = AppointmentTable.id (Appointment.API.appointment y) ->
      x = y.
Proof.
  intros (Ha & _ & Hc & Hu) Hp.
  destruct (getAllWithDetails_rows patient_key patients w)
    as [rows [Hres Hrows]].
  exists rows. split; [exact Hres|].
  intros [a p c u] [a' p' c' u'] Hx Hy Hid.
  apply Hrows in Hx. apply Hrows in Hy. simpl in *.
  destruct Hx as ((Hin_a & _) & (Hin_p & Hpk) & (Hin_c & Hck) & (Hin_u & Huk)).
  destruct Hy as ((Hin_a' & _) & (Hin_p' & Hpk') & (Hin_c' & Hck')
                  & (Hin_u' & Huk')).
  assert (Ea : a = a') by (eapply unique_row; eauto). subst a'.
  assert (Ep : p = p') by (eapply unique_row; eauto; congruence). subst p'.
  assert (Ec : c = c') by (eapply unique_row; eauto; congruence). subst c'.
  assert (Eu : u = u') by (eapply unique_row; eauto; congruence). subst u'.
  reflexivity.
Qed.

Lemma getAllWithDetails_lists_once_witness :
  let w := Sample.world Sample.db4 in
  unique_ids (db w) /\
  NoDup (keys (fun p : string => p) [Sample.patient_id]) /\
  exists rows,
    result_of (Appointment.API.getAllWithDetails (fun p : string => p)
                 [Sample.patient_id]) w = Ok rows /\
    length rows = 2%nat /\
    (exists x, In x rows /\
               Appointment.API.appointment x
               = Sample.booked Sample.appointment_id) /\
    (exists x, In x rows /\
               Appointment.API.appointment x
               = Sample.booked Sample.second_appointment_id) /\
    forall x y,
      In x rows -> In y rows ->
      AppointmentTable.id (Appointment.API.appointment x)
      = AppointmentTable.id (Appointment.API.appointment y) ->
      x = y.
Proof.
  cbv zeta.
  assert (H : unique_ids (db (Sample.world Sample.db4))).
  { repeat split; repeat constructor.
    - intros [Heq | []]. discriminate.
    - intros [].
    - intros [].
    - intros []. }
  assert (Hp : NoDup (keys (fun p : string => p) [Sample.patient_id])).
  { repeat constructor. intros []. }
  split; [exact H|]. split; [exact Hp|].
  destruct (@getAllWithDetails_lists_once string (fun p : string => p)
              [Sample.patient_id] (Sample.world Sample.db4) H Hp)
    as [rows [Hres Honce]].
  exists rows. split; [exact Hres|].
  injection Hres as <-.
  split; [reflexivity|]. split; [|split; [|exact Honce]].
  - eexists. split; [left; reflexivity | reflexivity].
  - eexists. split; [right; left; reflexivity | reflexivity].
Defined.

(** ** The delete button of the clinics page *)

Lemma handleDelete_run (id : string) (p : ClinicsRoute.Page) :
  ClinicsRoute.handleDelete true id p =
  let n := length (filter (Clinic.registered_in id)
                          (users (db (ClinicsRoute.world p)))) in
  let w' := world_after (Clinic.softDelete id) (ClinicsRoute.world p) in
  (Ok tt,
   ClinicsRoute.mkPage w'
     (ClinicsRoute.shown p ++
      (if (0 <? n)%nat
       then [ClinicsRoute.ConsoleError (ClinicHasUsers id n);
             ClinicsRoute.ToastError (ClinicHasUsers id n)]
       else []) ++
      [ClinicsRoute.ToastSuccess "Clinic deleted successfully";
       ClinicsRoute.RouterInvalidate])).
Proof.
  unfold ClinicsRoute.handleDelete, ClinicsRoute.then_, ClinicsRoute.catch_,
    ClinicsRoute.call, ClinicsRoute.deleteClinic, ClinicsRoute.emit,
    world_after.
  change (negb true) with false. cbv beta iota.
  rewrite clinic_softDelete_run. cbv zeta.
  destruct (0 <? length (filter (Clinic.registered_in id)
                                (users (db (ClinicsRoute.world p)))))%nat;
    simpl; repeat rewrite <- app_assoc; reflexivity.
Qed.

(** X18. The delete button.  When the user declines the confirmation,
    nothing is sent and nothing is shown.  When the user confirms, the
    chain [.catch (...).then (...)] never rejects and always ends by
    showing "Clinic deleted successfully" and invalidating the router: also
    when the server refused the deletion because users are registered, in
    which case the error is logged and shown first and the clinics are as
    they were. *)
Theorem handleDelete_reports_success (id : string) (p : ClinicsRoute.Page) :
  let done := ClinicsRoute.handleDelete true id p in
  let after_success :=
    [ClinicsRoute.ToastSuccess "Clinic deleted successfully";
     ClinicsRoute.RouterInvalidate] in
  ClinicsRoute.handleDelete false id p = (Ok tt, p) /\
  fst done = Ok tt /\
  ((exists u, In u (users (db (ClinicsRoute.world p))) /\
              registered_user id u) ->
   (exists n, (0 < n)%nat /\
      ClinicsRoute.shown (snd done) =
      ClinicsRoute.shown p ++
      [ClinicsRoute.ConsoleError (ClinicHasUsers id n);
       ClinicsRoute.ToastError (ClinicHasUsers id n)] ++ after_success) /\
   db (ClinicsRoute.world (snd done)) = db (ClinicsRoute.world p)) /\
  ((~ exists u, In u (users (db (ClinicsRoute.world p))) /\
                registered_user id u) ->
   ClinicsRoute.shown (snd done) = ClinicsRoute.shown p ++ after_success /\
   clinics (db (ClinicsRoute.world (snd done))) =
   update_where ClinicTable.id id
     (Clinic.mark_deleted (js_now (ClinicsRoute.world p)))
     (clinics (db (ClinicsRoute.world p)))).
Proof.
  intros done after_success. subst done after_success.
  split; [reflexivity|].
  rewrite handleDelete_run. cbv zeta. unfold world_after.
  rewrite clinic_softDelete_run. cbv zeta.
  destruct (0 <? length (filter (Clinic.registered_in id)
                                (users (db (ClinicsRoute.world p)))))%nat
    eqn:E; simpl.
  - split; [reflexivity|]. split.
    + intros _. split; [|reflexivity].
      eexists. split; [|reflexivity]. now apply Nat.ltb_lt.
    + intro H. apply no_registered_user in H. congruence.
  - split; [reflexivity|]. split.
    + intro H. apply no_registered_user in E. contradiction.
    + intros _. split; reflexivity.
Qed.

Lemma handleDelete_reports_success_witness :
  let p := ClinicsRoute.mkPage (Sample.world Sample.db1) [] in
  (exists u, In u (users (db (ClinicsRoute.world p))) /\
             registered_user Sample.clinic_id u) /\
  ClinicsRoute.shown (snd (ClinicsRoute.handleDelete true Sample.clinic_id p))
  = [ClinicsRoute.ConsoleError (ClinicHasUsers Sample.clinic_id 1);
     ClinicsRoute.ToastError (ClinicHasUsers Sample.clinic_id 1);
     ClinicsRoute.ToastSuccess "Clinic deleted successfully";
     ClinicsRoute.RouterInvalidate] /\
  db (ClinicsRoute.world
        (snd (ClinicsRoute.handleDelete true Sample.clinic_id p)))
  = Sample.db1.
Proof.
  cbv zeta.
  assert (H : exists u,
             In u (users (db (ClinicsRoute.world
                                (ClinicsRoute.mkPage
                                   (Sample.world Sample.db1) [])))) /\
             registered_user Sample.clinic_id u).
  { exists Sample.nurse. split; [now left | split; reflexivity]. }
  split; [exact H|].
  destruct (handleDelete_reports_success Sample.clinic_id
              (ClinicsRoute.mkPage (Sample.world Sample.db1) []))
    as (_ & _ & Hrefused & _).
  destruct (Hrefused H) as [_ Hdb].
  split; [reflexivity | exact Hdb].
Defined.

(** ** Sample runs of the properties stated for every row *)

Lemma toggleStatus_after_softDelete_witness :
  let w := Sample.world Sample.db1 in
  let w1 := later 1700000900%Z 1700000901%Z
              (world_after (Appointment.API.softDelete Sample.appointment_id)
                           w) in
  let w2 := world_after
              (Appointment.API.toggleStatus Sample.appointment_id completed)
              w1 in
  In Sample.stored (appointments (db w)) /\
  (forall r, In r (appointments (db w2)) ->
             AppointmentTable.id r = Sample.appointment_id ->
             AppointmentTable.status r = completed /\
             AppointmentTable.is_deleted r = true) /\
  result_of (Appointment.API.getById Sample.appointment_id) w2 = Ok None.
Proof.
  cbv zeta. split; [now left|].
  destruct (toggleStatus_after_softDelete Sample.appointment_id completed
              1700000900%Z 1700000901%Z (Sample.world Sample.db1))
    as (Hrows & _ & Hget & _).
  split; [|exact Hget].
  intros r Hin Hid. destruct (Hrows r Hin Hid) as (Hs & _ & Hd & _).
  split; assumption.
Defined.

Lemma appointment_softDelete_again_witness :
  let w := Sample.world Sample.db1 in
  let w1 := later 1700000900%Z 1700000901%Z
              (world_after (Appointment.API.softDelete Sample.appointment_id)
                           w) in
  let w2 := world_after (Appointment.API.softDelete Sample.appointment_id)
                        w1 in
  map AppointmentTable.deleted_at (appointments (db w1))
  = [Some 1700000600%Z] /\
  result_of (Appointment.API.softDelete Sample.appointment_id) w1
  = Ok [mkUpdateResult 1] /\
  (forall r, In r (appointments (db w2)) ->
             AppointmentTable.id r = Sample.appointment_id ->
             AppointmentTable.deleted_at r = Some 1700000900%Z).
Proof.
  cbv zeta. split; [reflexivity|].
  destruct (appointment_softDelete_again Sample.appointment_id
              1700000900%Z 1700000901%Z (Sample.world Sample.db1))
    as (Hres & _ & Hrows & _).
  split; [rewrite Hres; reflexivity|].
  intros r Hin Hid. destruct (Hrows r Hin Hid) as (_ & Hd & _). exact Hd.
Defined.

Lemma getAllWithDetails_lists_witness :
  let w := Sample.world
             (mkDb [Sample.stored] [] [Sample.clinic]
                   [User.mk Sample.doctor_id None false]) in
  AppointmentTable.provider_id Sample.stored = None /\
  result_of Appointment.API.getAll w = Ok [Sample.stored] /\
  exists rows,
    result_of (Appointment.API.getAllWithDetails (fun p : string => p)
                 [Sample.patient_id]) w = Ok rows /\
    forall x, In x rows ->
              AppointmentTable.provider_id (Appointment.API.appointment x)
              <> None.
Proof.
  cbv zeta. split; [reflexivity|]. split; [reflexivity|].
  destruct (@getAllWithDetails_lists string (fun p : string => p)
              [Sample.patient_id]
              (Sample.world
                 (mkDb [Sample.stored] [] [Sample.clinic]
                       [User.mk Sample.doctor_id None false])))
    as [rows [all (Hrows & _ & _ & _ & Hprov)]].
  exists rows. split; [exact Hrows | exact Hprov].
Defined.
